(** * NoteKeep: the in-memory storage engine and the authentication routes

    A shallow embedding of [server/storage.ts] (class [MemStorage]) and of
    the handlers of [server/routes.ts], with the properties the
    specification states about them.

    Conventions of the embedding.
    - A JavaScript string is a Rocq [string]; a character is read as a
      UTF-16 code unit below 256 (the Latin-1 range), on which
      [toLowerCase] and the class [\s] are given exactly.
    - A [Date] is the integer [getTime()] returns (milliseconds), in [Z].
    - A JavaScript [Map<string, V>] is an association list in insertion
      order, which is the order [Map.prototype.values()] iterates in.
    - [randomUUID()], [crypto.randomBytes], the bcrypt salt and
      [new Date()] are inputs of the operation that calls them. *)

From Stdlib Require Import String Ascii List ZArith Lia Bool Arith.
From Stdlib Require Import Sorting.Sorted Sorting.Permutation.
From Stdlib Require Import DecimalString.
Import ListNotations.
Open Scope string_scope.

(** ** JavaScript primitives used by the source *)

Module JS.

(** [String.prototype.toLowerCase] on code units below 256: A-Z and the
    Latin-1 capitals (U+00C0..U+00DE except U+00D7) move up by 32. *)
Definition lower_char (c : ascii) : ascii :=
  let n := nat_of_ascii c in
  if (((65 <=? n) && (n <=? 90)) ||
      ((192 <=? n) && (n <=? 222) && negb (n =? 215)))%nat
  then ascii_of_nat (n + 32) else c.

Fixpoint toLowerCase (s : string) : string :=
  match s with
  | EmptyString => EmptyString
  | String c r => String (lower_char c) (toLowerCase r)
  end.

(** [q] is a prefix of [s]. *)
Fixpoint startsWith (s q : string) {struct q} : bool :=
  match q, s with
  | EmptyString, _ => true
  | String _ _, EmptyString => false
  | String a q', String b s' => Ascii.eqb a b && startsWith s' q'
  end.

(** [String.prototype.includes]: [q] occurs in [s] at some position. *)
Fixpoint includes (s q : string) : bool :=
  startsWith s q ||
  match s with
  | EmptyString => false
  | String _ s' => includes s' q
  end.

(** The class [\s] of a regular expression, below code unit 256:
    TAB, LF, VT, FF, CR, SPACE and NBSP. *)
Definition is_space (c : ascii) : bool :=
  let n := nat_of_ascii c in
  (((9 <=? n) && (n <=? 13)) || (n =? 32) || (n =? 160))%nat.

(** [s.split(/\s+/)]: the pieces of [s] between maximal runs of white
    space.  [cur] is the piece being read, [in_ws] tells that the last
    character read was white space (its run has already closed a piece). *)
Fixpoint split_ws_from (cur : string) (in_ws : bool) (s : string) : list string :=
  match s with
  | EmptyString => [cur]
  | String c r =>
      if is_space c
      then if in_ws then split_ws_from "" true r
           else cur :: split_ws_from "" true r
      else split_ws_from (cur ++ String c "") false r
  end.

Definition split_ws (s : string) : list string := split_ws_from "" false s.

(** [Number.prototype.toString] on a natural number. *)
Definition toString (n : nat) : string :=
  NilZero.string_of_uint (Nat.to_uint n).

(** Truthiness of a string value: only the empty string is falsy. *)
Definition truthy (s : string) : bool := negb (s =? "").

(** Truthiness of a value that is a string, [null] or [undefined]. *)
Definition truthy_opt (o : option string) : bool :=
  match o with
  | Some s => truthy s
  | None => false
  end.

(** [Array.prototype.sort(cmp)]: the sort is stable, so with a consistent
    comparator its result is the one of a stable insertion: an element
    goes in front of the first element it does not have to follow. *)
Section Sort.
Context {A : Type} (cmp : A -> A -> Z).

Fixpoint insert (x : A) (l : list A) : list A :=
  match l with
  | [] => [x]
  | y :: r => if (cmp x y <=? 0)%Z then x :: y :: r else y :: insert x r
  end.

Fixpoint sort (l : list A) : list A :=
  match l with
  | [] => []
  | x :: r => insert x (sort r)
  end.
End Sort.

(** [Map<string, V>], in insertion order. *)
Definition Map (V : Type) : Type := list (string * V).

Section MapOps.
Context {V : Type}.

Fixpoint get (k : string) (m : Map V) : option V :=
  match m with
  | [] => None
  | (k', v) :: r => if k' =? k then Some v else get k r
  end.

(** [set] keeps the position of a key that is present, and appends a
    new key. *)
Fixpoint set (k : string) (v : V) (m : Map V) : Map V :=
  match m with
  | [] => [(k, v)]
  | (k', v') :: r => if k' =? k then (k', v) :: r else (k', v') :: set k v r
  end.

Fixpoint delete (k : string) (m : Map V) : Map V :=
  match m with
  | [] => []
  | (k', v') :: r => if k' =? k then r else (k', v') :: delete k r
  end.

Definition values (m : Map V) : list V := List.map snd m.
Definition keys (m : Map V) : list string := List.map fst m.
End MapOps.

End JS.

(** ** The data model ([shared/schema.ts]) *)

Definition Date := Z.

Record User := mkUser {
  user_id : string;
  user_username : string;
  user_password : string;
  user_recoveryKey : string;
  user_encryptionKey : string;
  user_createdAt : Date
}.

Record Folder := mkFolder {
  folder_id : string;
  folder_name : string;
  folder_emoji : option string;
  folder_parentId : option string;
  folder_userId : string;
  folder_createdAt : Date
}.

Record Note := mkNote {
  note_id : string;
  note_title : string;
  note_content : string;
  note_encryptedContent : option string;
  note_isPinned : bool;
  note_folderId : option string;
  note_userId : string;
  note_tags : list string;
  note_wordCount : string;
  note_createdAt : Date;
  note_updatedAt : Date
}.

(** A field of a request object that may be left out: [None] is
    [undefined].  A nullable column that may be left out has three
    values: [None] is [undefined], [Some None] is [null]. *)

(** [InsertFolder & { userId }]. *)
Record InsertFolder := mkInsertFolder {
  if_name : string;
  if_emoji : option (option string);
  if_parentId : option (option string);
  if_userId : string
}.

(** [InsertNote & { userId }]. *)
Record InsertNote := mkInsertNote {
  in_title : string;
  in_content : string;
  in_folderId : option (option string);
  in_tags : option (list string);
  in_isPinned : option bool;
  in_userId : string
}.

(** [Partial<UpdateNote>]. *)
Record UpdateNote := mkUpdateNote {
  un_title : option string;
  un_content : option string;
  un_folderId : option (option string);
  un_tags : option (list string);
  un_isPinned : option bool
}.

(** [InsertUser & { recoveryKey, encryptionKey }]. *)
Record InsertUser := mkInsertUser {
  iu_username : string;
  iu_password : string;
  iu_recoveryKey : string;
  iu_encryptionKey : string
}.

(** [Partial<InsertFolder>] as [PUT /api/folders/:id] passes it: the
    result of [insertFolderSchema.partial().parse] on a JSON body.  A key
    is absent ([None]) or present with a value of its column's type.
    JSON has no [undefined] and the parse sets no key that the body does
    not have, so no key is present with the value [undefined]. *)
Record UpdateFolder := mkUpdateFolder {
  uf_name : option string;
  uf_emoji : option (option string);
  uf_parentId : option (option string)
}.

(** ** The store ([server/storage.ts], class [MemStorage]) *)

Record Store := mkStore {
  users : JS.Map User;
  folders : JS.Map Folder;
  notes : JS.Map Note
}.

(** [x || null] on a string that may be [null] or [undefined]. *)
Definition or_null (x : option (option string)) : option string :=
  match x with
  | Some (Some s) => if JS.truthy s then Some s else None
  | _ => None
  end.

(** [x !== undefined ? x : old]. *)
Definition if_defined {A : Type} (x : option A) (old : A) : A :=
  match x with
  | Some v => v
  | None => old
  end.

(** One key of [{ ...old, ...update }]: a key that [update] has
    overrides the key of [old], a key that it lacks leaves it. *)
Definition spread_key {A : Type} (x : option A) (old : A) : A :=
  match x with
  | Some v => v
  | None => old
  end.

(** [a === id] between a nullable string and a string. *)
Definition is_string (a : option string) (id : string) : bool :=
  match a with
  | Some s => s =? id
  | None => false
  end.

Module MemStorage.

Definition empty : Store := mkStore [] [] [].

(** *** User operations *)

Definition getUser (st : Store) (id : string) : option User :=
  JS.get id (users st).

Definition getUserByUsername (st : Store) (username : string) : option User :=
  List.find (fun user => user_username user =? username) (JS.values (users st)).

Definition createUser (st : Store) (id : string) (now : Date) (insertUser : InsertUser)
  : Store * User :=
  let user := mkUser id (iu_username insertUser) (iu_password insertUser)
                     (iu_recoveryKey insertUser) (iu_encryptionKey insertUser) now in
  (mkStore (JS.set id user (users st)) (folders st) (notes st), user).

Definition updateUserPassword (st : Store) (id : string) (password : string) : Store :=
  match JS.get id (users st) with
  | Some user =>
      let user' := mkUser (user_id user) (user_username user) password
                          (user_recoveryKey user) (user_encryptionKey user)
                          (user_createdAt user) in
      mkStore (JS.set id user' (users st)) (folders st) (notes st)
  | None => st
  end.

(** *** Folder operations *)

Definition getFoldersByUserId (st : Store) (userId : string) : list Folder :=
  List.filter (fun folder => folder_userId folder =? userId) (JS.values (folders st)).

Definition getFolder (st : Store) (id : string) : option Folder :=
  JS.get id (folders st).

Definition createFolder (st : Store) (id : string) (now : Date) (insertFolder : InsertFolder)
  : Store * Folder :=
  let folder := mkFolder id (if_name insertFolder)
                         (or_null (if_emoji insertFolder))
                         (or_null (if_parentId insertFolder))
                         (if_userId insertFolder) now in
  (mkStore (users st) (JS.set id folder (folders st)) (notes st), folder).

Definition updateFolder (st : Store) (id : string) (update : UpdateFolder)
  : Store * option Folder :=
  match JS.get id (folders st) with
  | Some folder =>
      (* { ...folder, ...update } *)
      let updated := mkFolder (folder_id folder)
                              (spread_key (uf_name update) (folder_name folder))
                              (spread_key (uf_emoji update) (folder_emoji folder))
                              (spread_key (uf_parentId update) (folder_parentId folder))
                              (folder_userId folder) (folder_createdAt folder) in
      (mkStore (users st) (JS.set id updated (folders st)) (notes st), Some updated)
  | None => (st, None)
  end.

Definition deleteFolder (st : Store) (id : string) : Store :=
  let folders' := JS.delete id (folders st) in
  (* Also delete all notes in this folder *)
  let notesToDelete :=
    List.filter (fun note => is_string (note_folderId note) id) (JS.values (notes st)) in
  mkStore (users st) folders'
          (List.fold_left (fun m note => JS.delete (note_id note) m) notesToDelete (notes st)).

(** *** Note operations *)

(** The comparator [(a, b) => b.updatedAt.getTime() - a.updatedAt.getTime()]. *)
Definition by_updatedAt_desc (a b : Note) : Z :=
  (note_updatedAt b - note_updatedAt a)%Z.

Definition getNotesByUserId (st : Store) (userId : string) : list Note :=
  JS.sort by_updatedAt_desc
    (List.filter (fun note => note_userId note =? userId) (JS.values (notes st))).

Definition getNotesByFolderId (st : Store) (folderId : string) : list Note :=
  JS.sort by_updatedAt_desc
    (List.filter (fun note => is_string (note_folderId note) folderId) (JS.values (notes st))).

Definition getPinnedNotes (st : Store) (userId : string) : list Note :=
  JS.sort by_updatedAt_desc
    (List.filter (fun note => (note_userId note =? userId) && note_isPinned note)
                 (JS.values (notes st))).

(** The predicate [searchNotes] filters with, for the lowercased query. *)
Definition matches (lowercaseQuery : string) (note : Note) : bool :=
  JS.includes (JS.toLowerCase (note_title note)) lowercaseQuery ||
  JS.includes (JS.toLowerCase (note_content note)) lowercaseQuery ||
  List.existsb (fun tag => JS.includes (JS.toLowerCase tag) lowercaseQuery) (note_tags note).

Definition searchNotes (st : Store) (userId : string) (query : string) : list Note :=
  let lowercaseQuery := JS.toLowerCase query in
  JS.sort by_updatedAt_desc
    (List.filter (fun note => (note_userId note =? userId) && matches lowercaseQuery note)
                 (JS.values (notes st))).

Definition getNote (st : Store) (id : string) : option Note :=
  JS.get id (notes st).

(** [content.split(/\s+/).filter(word => word.length > 0).length] *)
Definition countWords (content : string) : nat :=
  List.length (List.filter (fun word => (0 <? String.length word)%nat) (JS.split_ws content)).

Definition createNote (st : Store) (id : string) (now : Date) (insertNote : InsertNote)
  : Store * Note :=
  let wordCount := JS.toString (countWords (in_content insertNote)) in
  let note := mkNote id (in_title insertNote) (in_content insertNote) None
                     (match in_isPinned insertNote with Some b => b | None => false end)
                     (or_null (in_folderId insertNote))
                     (in_userId insertNote)
                     (match in_tags insertNote with Some t => t | None => [] end)
                     wordCount now now in
  (mkStore (users st) (folders st) (JS.set id note (notes st)), note).

Definition updateNote (st : Store) (id : string) (update : UpdateNote) (now : Date)
  : Store * option Note :=
  match JS.get id (notes st) with
  | Some note =>
      let wordCount :=
        match un_content update with
        | Some content =>
            if JS.truthy content then JS.toString (countWords content)
            else note_wordCount note
        | None => note_wordCount note
        end in
      let updated := mkNote (note_id note)
                            (if_defined (un_title update) (note_title note))
                            (if_defined (un_content update) (note_content note))
                            (note_encryptedContent note)
                            (if_defined (un_isPinned update) (note_isPinned note))
                            (if_defined (un_folderId update) (note_folderId note))
                            (note_userId note)
                            (if_defined (un_tags update) (note_tags note))
                            wordCount
                            (note_createdAt note)
                            now in
      (mkStore (users st) (folders st) (JS.set id updated (notes st)), Some updated)
  | None => (st, None)
  end.

Definition deleteNote (st : Store) (id : string) : Store :=
  mkStore (users st) (folders st) (JS.delete id (notes st)).

End MemStorage.

(** ** The request handlers ([server/routes.ts]) *)

(** [req.session.userId]. *)
Definition Session := option string.

(** What a handler sends: the payload of [res.json], or a status with an
    error message. *)
Inductive Response :=
| RegisterOk (id username recoveryKey encryptionKey : string)
| AuthOk (id username encryptionKey : string)
| NotesOk (l : list Note)
| NoteOk (n : Note)
| Success
| Error (status : Z) (error : string).

(** The body of the three authentication requests; [None] is a field that
    is missing or is not a string. *)
Record AuthBody := mkAuthBody {
  body_username : option string;
  body_password : option string;
  body_recoveryKey : option string;
  body_newPassword : option string
}.

(** The body of the two note requests. *)
Record NoteBody := mkNoteBody {
  body_title : option string;
  body_content : option string;
  body_folderId : option (option string);
  body_tags : option (list string);
  body_isPinned : option bool
}.

(** [req.query] of [GET /api/notes]. *)
Record NotesQuery := mkNotesQuery {
  query_folderId : option string;
  query_search : option string;
  query_pinned : option string
}.

(** [insertUserSchema]: two strings. *)
Definition insertUserSchema (b : AuthBody) : option (string * string) :=
  match body_username b, body_password b with
  | Some username, Some password => Some (username, password)
  | _, _ => None
  end.

(** [loginSchema]: two strings, [min(1)] each. *)
Definition loginSchema (b : AuthBody) : option (string * string) :=
  match body_username b, body_password b with
  | Some username, Some password =>
      if ((1 <=? String.length username) && (1 <=? String.length password))%nat
      then Some (username, password) else None
  | _, _ => None
  end.

(** [recoverySchema]: [min(1)], [min(1)], [min(6)]. *)
Definition recoverySchema (b : AuthBody) : option (string * string * string) :=
  match body_username b, body_recoveryKey b, body_newPassword b with
  | Some username, Some recoveryKey, Some newPassword =>
      if ((1 <=? String.length username) && (1 <=? String.length recoveryKey)
          && (6 <=? String.length newPassword))%nat
      then Some (username, recoveryKey, newPassword) else None
  | _, _, _ => None
  end.

(** [insertNoteSchema]: title and content are required, the other fields
    may be left out. *)
Definition insertNoteSchema (b : NoteBody) : option (string * string) :=
  match body_title b, body_content b with
  | Some title, Some content => Some (title, content)
  | _, _ => None
  end.

(** The test [x === "none"] on a folder selection. *)
Definition is_none_sentinel (x : option (option string)) : bool :=
  match x with
  | Some (Some s) => s =? "none"
  | _ => false
  end.

(** [if (x.folderId === "none") x.folderId = undefined]. *)
Definition none_to_undefined (x : option (option string)) : option (option string) :=
  if is_none_sentinel x then None else x.

(** [requireAuth]: the user of the session, when there is one. *)
Definition requireAuth (sess : Session) : option string :=
  match sess with
  | Some userId => if JS.truthy userId then Some userId else None
  | None => None
  end.

Definition unauthenticated : Response := Error 401 "Authentication required".

Module Routes.

Section Auth.
(** [bcrypt.hash(password, 10)] with the salt it draws, and
    [bcrypt.compare(password, hash)]. *)
Variable bcrypt_hash : string -> string -> string.
Variable bcrypt_compare : string -> string -> bool.

(** [POST /api/register].  The session store is the default in-memory
    one, whose [save] does not fail. *)
Definition register (st : Store) (sess : Session) (body : AuthBody)
           (id recoveryKey encryptionKey salt : string) (now : Date)
  : Store * Session * Response :=
  match insertUserSchema body with
  | None => (st, sess, Error 400 "Invalid registration data")
  | Some (username, password) =>
      (* Check if user exists *)
      match MemStorage.getUserByUsername st username with
      | Some _ => (st, sess, Error 400 "Username already exists")
      | None =>
          let hashedPassword := bcrypt_hash password salt in
          let '(st', user) :=
            MemStorage.createUser st id now
              (mkInsertUser username hashedPassword recoveryKey encryptionKey) in
          (st', Some (user_id user),
           RegisterOk (user_id user) (user_username user) recoveryKey encryptionKey)
      end
  end.

(** [POST /api/login]. *)
Definition login (st : Store) (sess : Session) (body : AuthBody)
  : Store * Session * Response :=
  match loginSchema body with
  | None => (st, sess, Error 400 "Invalid login data")
  | Some (username, password) =>
      match MemStorage.getUserByUsername st username with
      | None => (st, sess, Error 401 "Invalid credentials")
      | Some user =>
          if bcrypt_compare password (user_password user)
          then (st, Some (user_id user),
                AuthOk (user_id user) (user_username user) (user_encryptionKey user))
          else (st, sess, Error 401 "Invalid credentials")
      end
  end.

(** [POST /api/recover]. *)
Definition recover (st : Store) (sess : Session) (body : AuthBody) (salt : string)
  : Store * Session * Response :=
  match recoverySchema body with
  | None => (st, sess, Error 400 "Invalid recovery data")
  | Some (username, recoveryKey, newPassword) =>
      match MemStorage.getUserByUsername st username with
      | None => (st, sess, Error 401 "Invalid recovery credentials")
      | Some user =>
          if negb (user_recoveryKey user =? recoveryKey)
          then (st, sess, Error 401 "Invalid recovery credentials")
          else
            let hashedPassword := bcrypt_hash newPassword salt in
            (MemStorage.updateUserPassword st (user_id user) hashedPassword,
             Some (user_id user),
             AuthOk (user_id user) (user_username user) (user_encryptionKey user))
      end
  end.
End Auth.

(** [DELETE /api/folders/:id]. *)
Definition delete_folder (st : Store) (sess : Session) (id : string) : Store * Response :=
  match requireAuth sess with
  | None => (st, unauthenticated)
  | Some _ => (MemStorage.deleteFolder st id, Success)
  end.

(** [GET /api/notes]. *)
Definition get_notes (st : Store) (sess : Session) (query : NotesQuery) : Response :=
  match requireAuth sess with
  | None => unauthenticated
  | Some userId =>
      if JS.truthy_opt (query_search query)
      then NotesOk (MemStorage.searchNotes st userId (if_defined (query_search query) ""))
      else if is_string (query_pinned query) "true"
      then NotesOk (MemStorage.getPinnedNotes st userId)
      else if JS.truthy_opt (query_folderId query)
      then NotesOk (MemStorage.getNotesByFolderId st (if_defined (query_folderId query) ""))
      else NotesOk (MemStorage.getNotesByUserId st userId)
  end.

(** [POST /api/notes]. *)
Definition post_note (st : Store) (sess : Session) (body : NoteBody)
           (id : string) (now : Date) : Store * Response :=
  match requireAuth sess with
  | None => (st, unauthenticated)
  | Some userId =>
      match insertNoteSchema body with
      | None => (st, Error 400 "Invalid note data")
      | Some (title, content) =>
          (* Convert "none" folder selection back to null for database *)
          let folderId := none_to_undefined (body_folderId body) in
          let '(st', note) :=
            MemStorage.createNote st id now
              (mkInsertNote title content folderId (body_tags body) (body_isPinned body)
                            userId) in
          (st', NoteOk note)
      end
  end.

(** [PUT /api/notes/:id]; every field of [updateNoteSchema] is optional. *)
Definition put_note (st : Store) (sess : Session) (id : string) (body : NoteBody)
           (now : Date) : Store * Response :=
  match requireAuth sess with
  | None => (st, unauthenticated)
  | Some _ =>
      (* Convert "none" folder selection back to null for database *)
      let folderId := none_to_undefined (body_folderId body) in
      let noteData := mkUpdateNote (body_title body) (body_content body) folderId
                                   (body_tags body) (body_isPinned body) in
      match MemStorage.updateNote st id noteData now with
      | (st', Some note) => (st', NoteOk note)
      | (st', None) => (st', Error 404 "Note not found")
      end
  end.

(** [DELETE /api/notes/:id]. *)
Definition delete_note (st : Store) (sess : Session) (id : string) : Store * Response :=
  match requireAuth sess with
  | None => (st, unauthenticated)
  | Some _ => (MemStorage.deleteNote st id, Success)
  end.

End Routes.

(** ** The other request handlers ([server/routes.ts]) *)

(** What the folder handlers send. *)
Inductive FolderResponse :=
| FoldersOk (l : list Folder)
| FolderOk (f : Folder)
| FolderSuccess
| FolderError (status : Z) (error : string).

(** The body of the two folder requests, a JSON object: a key is absent
    ([None]) or holds a value of its column's type, [null] ([Some None])
    among them for the two nullable columns. *)
Record FolderBody := mkFolderBody {
  body_name : option string;
  body_emoji : option (option string);
  body_parentId : option (option string)
}.

(** [insertFolderSchema]: the name is required. *)
Definition insertFolderSchema (b : FolderBody) : option string := body_name b.

Module Api.

(** [POST /api/logout]; the in-memory session store does not fail to
    destroy a session. *)
Definition logout (sess : Session) : Session * Response := (None, Success).

(** [GET /api/me]. *)
Definition me (st : Store) (sess : Session) : Response :=
  match requireAuth sess with
  | None => unauthenticated
  | Some userId =>
      match MemStorage.getUser st userId with
      | None => Error 404 "User not found"
      | Some user => AuthOk (user_id user) (user_username user) (user_encryptionKey user)
      end
  end.

(** [GET /api/folders]. *)
Definition get_folders (st : Store) (sess : Session) : FolderResponse :=
  match requireAuth sess with
  | None => FolderError 401 "Authentication required"
  | Some userId => FoldersOk (MemStorage.getFoldersByUserId st userId)
  end.

(** [POST /api/folders]. *)
Definition post_folder (st : Store) (sess : Session) (body : FolderBody)
           (id : string) (now : Date) : Store * FolderResponse :=
  match requireAuth sess with
  | None => (st, FolderError 401 "Authentication required")
  | Some userId =>
      match insertFolderSchema body with
      | None => (st, FolderError 400 "Invalid folder data")
      | Some name =>
          let '(st', folder) :=
            MemStorage.createFolder st id now
              (mkInsertFolder name (body_emoji body) (body_parentId body) userId) in
          (st', FolderOk folder)
      end
  end.

(** [PUT /api/folders/:id]; every key of the partial schema is optional,
    and the parse hands on the keys the body has. *)
Definition put_folder (st : Store) (sess : Session) (id : string) (body : FolderBody)
  : Store * FolderResponse :=
  match requireAuth sess with
  | None => (st, FolderError 401 "Authentication required")
  | Some _ =>
      match MemStorage.updateFolder st id
              (mkUpdateFolder (body_name body) (body_emoji body) (body_parentId body)) with
      | (st', Some folder) => (st', FolderOk folder)
      | (st', None) => (st', FolderError 404 "Folder not found")
      end
  end.

(** [GET /api/notes/:id]. *)
Definition get_note (st : Store) (sess : Session) (id : string) : Response :=
  match requireAuth sess with
  | None => unauthenticated
  | Some _ =>
      match MemStorage.getNote st id with
      | None => Error 404 "Note not found"
      | Some note => NoteOk note
      end
  end.

End Api.

(** No two users of the store have the same name. *)
Definition unique_usernames (st : Store) : Prop :=
  NoDup (List.map user_username (JS.values (users st))).

(** [true] when no character of the string is outside the class [\s]. *)
Fixpoint blank (s : string) : bool :=
  match s with
  | EmptyString => true
  | String c r => JS.is_space c && blank r
  end.

(** ** The tag field of the note editor ([client/src/components/note-editor.tsx]) *)

Module Editor.

(** [String.prototype.trim]; below code unit 256 the characters it
    strips are those of the class [\s]. *)
Fixpoint trimStart (s : string) : string :=
  match s with
  | EmptyString => EmptyString
  | String c r => if JS.is_space c then trimStart r else s
  end.

Fixpoint trimEnd (s : string) : string :=
  match s with
  | EmptyString => EmptyString
  | String c r =>
      let r' := trimEnd r in
      if JS.is_space c && (r' =? "") then EmptyString else String c r'
  end.

Definition trim (s : string) : string := trimEnd (trimStart s).

(** [tags.includes(tag)]. *)
Definition includes (tags : list string) (tag : string) : bool :=
  List.existsb (fun t => t =? tag) tags.

(** [handleAddTag], on the state [tags] and [newTag] of the component. *)
Definition handleAddTag (tags : list string) (newTag : string) : list string * string :=
  if JS.truthy (trim newTag) && negb (includes tags (trim newTag))
  then ((tags ++ [trim newTag])%list, "")
  else (tags, newTag).

(** [handleRemoveTag]. *)
Definition handleRemoveTag (tags : list string) (tagToRemove : string) : list string :=
  List.filter (fun tag => negb (tag =? tagToRemove)) tags.

End Editor.

(** ** The folder tree of the sidebar ([buildFolderTree]) *)

Module Sidebar.

(** A [FolderWithChildren] object: the folder and its [children] array,
    which holds references to other such objects.  There is one object
    per key of [folderMap], so a reference is the key. *)
Definition Node : Type := Folder * list string.

(** The first loop: [folderMap.set(folder.id, { ...folder, children: [] })]. *)
Definition createNodes (folders : list Folder) : JS.Map Node :=
  List.fold_left (fun folderMap folder => JS.set (folder_id folder) (folder, []) folderMap)
                 folders [].

(** One turn of the second loop, on [folderMap] and [tree]. *)
Definition attach (state : JS.Map Node * list string) (folder : Folder)
  : JS.Map Node * list string :=
  let '(folderMap, tree) := state in
  if JS.truthy_opt (folder_parentId folder)
  then match JS.get (if_defined (folder_parentId folder) "") folderMap with
       | Some (parent, children) =>
           (JS.set (if_defined (folder_parentId folder) "")
                   (parent, (children ++ [folder_id folder])%list) folderMap,
            tree)
       | None => (folderMap, (tree ++ [folder_id folder])%list)
       end
  else (folderMap, (tree ++ [folder_id folder])%list).

(** [buildFolderTree]: the objects after both loops, and the roots. *)
Definition buildFolderTree (folders : list Folder) : JS.Map Node * list string :=
  List.fold_left attach folders (createNodes folders, []).

(** The [children] array of the object of a folder. *)
Definition children (folderMap : JS.Map Node) (id : string) : list string :=
  match JS.get id folderMap with
  | Some (_, ch) => ch
  | None => []
  end.

(** The folders [renderFolder] draws: the roots, and the children of a
    folder it draws. *)
Inductive shown (built : JS.Map Node * list string) : string -> Prop :=
| shown_root id : In id (snd built) -> shown built id
| shown_child parent id :
    shown built parent -> In id (children (fst built) parent) -> shown built id.

(** [folderMap.has(id)]. *)
Definition has (folderMap : JS.Map Node) (id : string) : bool :=
  match JS.get id folderMap with
  | Some _ => true
  | None => false
  end.

(** The folder names [id] as its parent. *)
Definition has_parent (id : string) (folder : Folder) : bool :=
  JS.truthy_opt (folder_parentId folder) && is_string (folder_parentId folder) id.

(** A folder is put among the roots when it names no parent, or a parent
    that is not in the list. *)
Definition is_root (folders : list Folder) (folder : Folder) : bool :=
  negb (JS.truthy_opt (folder_parentId folder)) ||
  negb (List.existsb (fun f => is_string (folder_parentId folder) (folder_id f)) folders).

End Sidebar.

(** A folder list for the sidebar: [a] with its child [b], the pair [c]
    and [d] that name each other, and [e] whose parent is not listed. *)
Module SampleFolders.

Definition folder (id : string) (parentId : option string) : Folder :=
  mkFolder id id None parentId "u-bob" 1000%Z.

Definition listed : list Folder :=
  [folder "a" None; folder "b" (Some "a"); folder "c" (Some "d");
   folder "d" (Some "c"); folder "e" (Some "zz")].

Definition cycle (id : string) : Prop := id = "c" \/ id = "d".

End SampleFolders.

(** No note was modified before it was created. *)
Definition timestamps_ordered (st : Store) : Prop :=
  forall n, In n (JS.values (notes st)) -> (note_createdAt n <= note_updatedAt n)%Z.

(** The words of a text counted in one pass; [inword] tells that the
    characters read last belong to a word that has not been counted. *)
Fixpoint words_from (inword : bool) (s : string) : nat :=
  match s with
  | EmptyString => if inword then 1 else 0
  | String c r =>
      if JS.is_space c then (if inword then 1 else 0) + words_from false r
      else words_from true r
  end.

(** ** Well-formed stores

    What every store built by the operations satisfies: a key occurs once
    in a map, and a record is stored under its own identifier. *)

Definition wf_map {V : Type} (ident : V -> string) (m : JS.Map V) : Prop :=
  NoDup (JS.keys m) /\ forall k v, In (k, v) m -> ident v = k.

Definition wf_store (st : Store) : Prop :=
  wf_map user_id (users st) /\ wf_map folder_id (folders st) /\ wf_map note_id (notes st).

(** The stores the operations build from the empty one. *)
Inductive step : Store -> Store -> Prop :=
| step_createUser st id now ins :
    step st (fst (MemStorage.createUser st id now ins))
| step_updateUserPassword st id password :
    step st (MemStorage.updateUserPassword st id password)
| step_createFolder st id now ins :
    step st (fst (MemStorage.createFolder st id now ins))
| step_updateFolder st id update :
    step st (fst (MemStorage.updateFolder st id update))
| step_deleteFolder st id :
    step st (MemStorage.deleteFolder st id)
| step_createNote st id now ins :
    step st (fst (MemStorage.createNote st id now ins))
| step_updateNote st id update now :
    step st (fst (MemStorage.updateNote st id update now))
| step_deleteNote st id :
    step st (MemStorage.deleteNote st id).

Inductive reachable : Store -> Prop :=
| reachable_empty : reachable MemStorage.empty
| reachable_step st st' : reachable st -> step st st' -> reachable st'.

(** Credentials the registration and the login both take: the login
    schema wants each of the two strings to have a character. *)
Definition valid_credentials (username password : string) : Prop :=
  username <> "" /\ password <> "".

(** The notes [deleteFolder] keeps. *)
Definition outside (id : string) (note : Note) : bool :=
  negb (is_string (note_folderId note) id).

(** Descending order of the last-modified time stamp. *)
Definition newer_first (a b : Note) : Prop := (note_updatedAt b <= note_updatedAt a)%Z.

Definition sorted_desc (l : list Note) : Prop := StronglySorted newer_first l.

(** The sort every listing ends with. *)
Abbreviation sort_notes := (JS.sort MemStorage.by_updatedAt_desc).
Abbreviation insert_note := (JS.insert MemStorage.by_updatedAt_desc).

(** [q] occurs in [s]. *)
Definition substring_of (q s : string) : Prop :=
  exists pre post, s = pre ++ q ++ post.

(** The three ways a note can match a search, on the lowercased texts. *)
Definition matches_spec (query : string) (note : Note) : Prop :=
  substring_of (JS.toLowerCase query) (JS.toLowerCase (note_title note)) \/
  substring_of (JS.toLowerCase query) (JS.toLowerCase (note_content note)) \/
  exists tag, In tag (note_tags note) /\
              substring_of (JS.toLowerCase query) (JS.toLowerCase tag).

(** ** Sample stores

    Small stores built with the operations themselves, on which the
    statements below are run. *)

Module Sample.

(** A stand-in for bcrypt: the hash carries the salt in front of the
    password, and [compare] looks for the password at the end. *)
Definition hash (password salt : string) : string := salt ++ password.

Fixpoint compare (password hashed : string) : bool :=
  (password =? hashed) ||
  match hashed with
  | EmptyString => false
  | String _ r => compare password r
  end.

Definition alice : string := "u-alice".
Definition bob : string := "u-bob".

(** Bob has a folder with one note in it. *)
Definition bobs_folder : Store :=
  fst (MemStorage.createFolder MemStorage.empty "f1" 1000%Z
         (mkInsertFolder "Work" None None bob)).

Definition bobs_note : Store :=
  fst (MemStorage.createNote bobs_folder "n1" 2000%Z
         (mkInsertNote "Alpha Plan" "a b c" (Some (Some "f1")) None None bob)).

(** Then a second, later note outside the folder. *)
Definition two_notes : Store :=
  fst (MemStorage.createNote bobs_note "n2" 3000%Z
         (mkInsertNote "Groceries" "milk" None (Some ["alpha-2"]) (Some true) bob)).

(** And a third one that has nothing of "alpha" in it. *)
Definition three_notes : Store :=
  fst (MemStorage.createNote two_notes "n3" 3500%Z
         (mkInsertNote "Beta" "Nothing here" None (Some ["misc"]) None bob)).

(** A note that names a folder no one created: folder references are
    not checked when a note is written. *)
Definition dangling : Store :=
  fst (MemStorage.createNote MemStorage.empty "n1" 2000%Z
         (mkInsertNote "Plan" "a b c" (Some (Some "ghost")) None None bob)).

(** Alice is registered. *)
Definition registered : Store :=
  fst (MemStorage.createUser MemStorage.empty alice 500%Z
         (mkInsertUser "alice" (hash "secret1" "salt") "rk-1" "ek-1")).

End Sample.

(** ** Facts about the primitives *)

(** *** Maps *)

Section MapFacts.
Context {V : Type}.
Implicit Types (m : JS.Map V) (k : string) (v : V).

Lemma get_Some_In k v m : JS.get k m = Some v -> In (k, v) m.
Proof.
  induction m as [|[k' v'] r IH]; simpl; [discriminate|].
  destruct (String.eqb_spec k' k) as [->|_].
  - intros [= ->]. now left.
  - intro H. right. now apply IH.
Qed.

Lemma In_keys k v m : In (k, v) m -> In k (JS.keys m).
Proof. intro H. apply (in_map fst) in H. exact H. Qed.

Lemma get_None_keys k m : JS.get k m = None <-> ~ In k (JS.keys m).
Proof.
  induction m as [|[k' v'] r IH]; simpl.
  - tauto.
  - destruct (String.eqb_spec k' k) as [->|Hne].
    + split; [discriminate | intro H; exfalso; apply H; now left].
    + rewrite IH. tauto.
Qed.

Lemma In_get k v m : NoDup (JS.keys m) -> In (k, v) m -> JS.get k m = Some v.
Proof.
  induction m as [|[k' v'] r IH]; simpl; [tauto|].
  intros ND [H|H].
  - injection H as -> ->. now rewrite String.eqb_refl.
  - inversion ND as [|? ? Hnotin ND']; subst.
    destruct (String.eqb_spec k' k) as [->|_].
    + exfalso. apply Hnotin. eapply In_keys; eauto.
    + now apply IH.
Qed.

Lemma get_set_eq k v m : JS.get k (JS.set k v m) = Some v.
Proof.
  induction m as [|[k' v'] r IH]; simpl.
  - now rewrite String.eqb_refl.
  - destruct (String.eqb_spec k' k) as [->|Hne]; simpl.
    + now rewrite String.eqb_refl.
    + destruct (String.eqb_spec k' k); [contradiction | exact IH].
Qed.

Lemma get_set_ne k k' v m : k <> k' -> JS.get k' (JS.set k v m) = JS.get k' m.
Proof.
  intro Hne. induction m as [|[k0 v0] r IH]; simpl.
  - destruct (String.eqb_spec k k'); [contradiction | reflexivity].
  - destruct (String.eqb_spec k0 k) as [->|Hk]; simpl.
    + destruct (String.eqb_spec k k'); [contradiction | reflexivity].
    + destruct (String.eqb_spec k0 k'); [reflexivity | exact IH].
Qed.

Lemma In_set k' v' k v m :
  In (k', v') (JS.set k v m) -> (k' = k /\ v' = v) \/ In (k', v') m.
Proof.
  induction m as [|[k0 v0] r IH]; simpl.
  - intros [[= <- <-]|[]]. now left.
  - destruct (String.eqb_spec k0 k) as [->|Hk]; simpl.
    + intros [[= <- <-]|H]; [now left | right; now right].
    + intros [H|H]; [right; now left|].
      destruct (IH H) as [?|?]; [now left | right; now right].
Qed.

Lemma keys_set k v m :
  JS.keys (JS.set k v m) =
  match JS.get k m with
  | Some _ => JS.keys m
  | None => (JS.keys m ++ [k])%list
  end.
Proof.
  induction m as [|[k0 v0] r IH]; simpl; [reflexivity|].
  destruct (String.eqb_spec k0 k) as [->|Hk]; simpl; [reflexivity|].
  rewrite IH. now destruct (JS.get k r).
Qed.

Lemma NoDup_keys_set k v m : NoDup (JS.keys m) -> NoDup (JS.keys (JS.set k v m)).
Proof.
  intro ND. rewrite keys_set. destruct (JS.get k m) eqn:E; [exact ND|].
  apply get_None_keys in E.
  apply NoDup_rev in ND. rewrite <- (rev_involutive (_ ++ _)%list).
  apply NoDup_rev. rewrite rev_app_distr. simpl. constructor; [|exact ND].
  now rewrite <- in_rev.
Qed.

(** On a map without duplicate keys, [delete] filters the key out. *)
Lemma delete_filter k m :
  NoDup (JS.keys m) ->
  JS.delete k m = List.filter (fun kv => negb (fst kv =? k)) m.
Proof.
  induction m as [|[k0 v0] r IH]; simpl; [reflexivity|].
  intro ND. inversion ND as [|? ? Hnotin ND']; subst.
  destruct (String.eqb_spec k0 k) as [->|Hk]; simpl.
  - symmetry. apply forallb_filter_id. apply forallb_forall.
    intros [k1 v1] Hin. simpl. destruct (String.eqb_spec k1 k) as [->|]; [|reflexivity].
    exfalso. apply Hnotin. eapply In_keys; eauto.
  - now rewrite IH.
Qed.

Lemma get_delete_eq k m : NoDup (JS.keys m) -> JS.get k (JS.delete k m) = None.
Proof.
  induction m as [|[k0 v0] r IH]; simpl; [reflexivity|].
  intro ND. inversion ND as [|? ? Hnotin ND']; subst.
  destruct (String.eqb_spec k0 k) as [->|Hk]; simpl.
  - now apply get_None_keys.
  - destruct (String.eqb_spec k0 k); [contradiction | now apply IH].
Qed.

Lemma get_delete_ne k k' m : k <> k' -> JS.get k' (JS.delete k m) = JS.get k' m.
Proof.
  intro Hne. induction m as [|[k0 v0] r IH]; simpl; [reflexivity|].
  destruct (String.eqb_spec k0 k) as [->|Hk]; simpl.
  - destruct (String.eqb_spec k k'); [contradiction | reflexivity].
  - destruct (String.eqb_spec k0 k'); [reflexivity | exact IH].
Qed.

Lemma delete_absent k m : JS.get k m = None -> JS.delete k m = m.
Proof.
  induction m as [|[k0 v0] r IH]; simpl; [reflexivity|].
  destruct (String.eqb_spec k0 k); [discriminate|].
  intro H. now rewrite IH.
Qed.

Lemma NoDup_keys_filter (f : string * V -> bool) m :
  NoDup (JS.keys m) -> NoDup (JS.keys (List.filter f m)).
Proof.
  induction m as [|[k0 v0] r IH]; simpl; [trivial|].
  intro ND. inversion ND as [|? ? Hnotin ND']; subst.
  destruct (f (k0, v0)); simpl; [|now apply IH].
  constructor; [|now apply IH].
  intro H. apply Hnotin. unfold JS.keys in *. rewrite in_map_iff in *.
  destruct H as [x [Hx Hin]]. exists x. split; [exact Hx|].
  apply filter_In in Hin. tauto.
Qed.

Lemma get_filter (f : V -> bool) k m :
  NoDup (JS.keys m) ->
  JS.get k (List.filter (fun kv => f (snd kv)) m) =
  match JS.get k m with
  | Some v => if f v then Some v else None
  | None => None
  end.
Proof.
  intro ND.
  pose proof (NoDup_keys_filter (fun kv => f (snd kv)) m ND) as ND'.
  destruct (JS.get k (List.filter _ m)) as [v'|] eqn:E'.
  - apply get_Some_In in E'. apply filter_In in E'. destruct E' as [Hin Hf].
    simpl in Hf. rewrite (In_get _ _ _ ND Hin), Hf. reflexivity.
  - destruct (JS.get k m) as [v|] eqn:E; [|reflexivity].
    destruct (f v) eqn:Hf; [|reflexivity].
    apply get_Some_In in E.
    assert (Hin : In (k, v) (List.filter (fun kv => f (snd kv)) m))
      by (apply filter_In; now split).
    rewrite (In_get _ _ _ ND' Hin) in E'. discriminate.
Qed.

Lemma values_filter (f : V -> bool) m :
  JS.values (List.filter (fun kv => f (snd kv)) m) = List.filter f (JS.values m).
Proof.
  induction m as [|[k0 v0] r IH]; simpl; [reflexivity|].
  destruct (f v0); simpl; now rewrite IH.
Qed.

Lemma In_values v m : In v (JS.values m) <-> exists k, In (k, v) m.
Proof.
  unfold JS.values. rewrite in_map_iff. split.
  - intros [[k v'] [<- H]]. now exists k.
  - intros [k H]. now exists (k, v).
Qed.
End MapFacts.

Section WfMap.
Context {V : Type} (ident : V -> string).

Lemma wf_map_nil : wf_map ident [].
Proof. split; [constructor | intros k v []]. Qed.

Lemma wf_map_set k v m : ident v = k -> wf_map ident m -> wf_map ident (JS.set k v m).
Proof.
  intros Hid [ND Hk]. split; [now apply NoDup_keys_set|].
  intros k' v' Hin. apply In_set in Hin. destruct Hin as [[-> ->]|Hin]; auto.
Qed.

Lemma wf_map_filter (f : string * V -> bool) m :
  wf_map ident m -> wf_map ident (List.filter f m).
Proof.
  intros [ND Hk]. split; [now apply NoDup_keys_filter|].
  intros k v Hin. apply filter_In in Hin. now apply Hk.
Qed.

Lemma wf_map_delete k m : wf_map ident m -> wf_map ident (JS.delete k m).
Proof.
  intros Hwf. rewrite delete_filter by apply Hwf. now apply wf_map_filter.
Qed.

Lemma wf_map_get k v m : wf_map ident m -> JS.get k m = Some v -> ident v = k.
Proof. intros [_ Hk] H. apply Hk. now apply get_Some_In. Qed.

(** The value under a key is the only value with that identifier. *)
Lemma wf_map_value k v m :
  wf_map ident m -> In v (JS.values m) -> ident v = k -> JS.get k m = Some v.
Proof.
  intros [ND Hk] Hin Hid. apply In_values in Hin. destruct Hin as [k' Hin].
  rewrite <- Hid, (Hk _ _ Hin). now apply In_get.
Qed.
End WfMap.

(** *** Sorting by last-modified time *)

Lemma by_updatedAt_desc_le a b :
  (MemStorage.by_updatedAt_desc a b <=? 0)%Z = true <-> newer_first a b.
Proof. unfold MemStorage.by_updatedAt_desc, newer_first. rewrite Z.leb_le. lia. Qed.

Lemma newer_first_trans a b c : newer_first a b -> newer_first b c -> newer_first a c.
Proof. unfold newer_first. lia. Qed.

Lemma insert_note_perm x l : Permutation (insert_note x l) (x :: l).
Proof.
  induction l as [|y r IH]; simpl; [reflexivity|].
  destruct (_ <=? 0)%Z; [reflexivity|].
  rewrite IH. apply perm_swap.
Qed.

Lemma sort_notes_perm l : Permutation (sort_notes l) l.
Proof.
  induction l as [|x r IH]; simpl; [reflexivity|].
  rewrite insert_note_perm. now constructor.
Qed.

Lemma sort_notes_In x l : In x (sort_notes l) <-> In x l.
Proof.
  split; apply Permutation_in; [|symmetry]; apply sort_notes_perm.
Qed.

Lemma insert_note_sorted x l : sorted_desc l -> sorted_desc (insert_note x l).
Proof.
  unfold sorted_desc. induction 1 as [|y r Hs IH Hall]; simpl.
  - repeat constructor.
  - destruct (_ <=? 0)%Z eqn:E.
    + apply by_updatedAt_desc_le in E.
      constructor; [now constructor|].
      constructor; [exact E|].
      eapply Forall_impl; [|exact Hall]. intros z Hz. eapply newer_first_trans; eauto.
    + constructor; [exact IH|].
      assert (Hyx : newer_first y x).
      { unfold newer_first. unfold MemStorage.by_updatedAt_desc in E.
        apply Z.leb_gt in E. lia. }
      eapply Permutation_Forall; [symmetry; apply insert_note_perm|].
      now constructor.
Qed.

Lemma sort_notes_sorted l : sorted_desc (sort_notes l).
Proof.
  induction l as [|x r IH]; simpl; [constructor | now apply insert_note_sorted].
Qed.

(** The sort is stable: it commutes with taking a sublist by a predicate. *)
Lemma insert_note_front x l :
  Forall (newer_first x) l -> insert_note x l = x :: l.
Proof.
  intros H. destruct l as [|y r]; simpl; [reflexivity|].
  inversion H as [|? ? Hxy _]; subst.
  apply by_updatedAt_desc_le in Hxy. now rewrite Hxy.
Qed.

Lemma filter_insert_note (p : Note -> bool) x l :
  sorted_desc l ->
  List.filter p (insert_note x l) =
  if p x then insert_note x (List.filter p l) else List.filter p l.
Proof.
  unfold sorted_desc. induction 1 as [|y r Hs IH Hall]; simpl.
  - now destruct (p x).
  - destruct (_ <=? 0)%Z eqn:E; simpl.
    + destruct (p x) eqn:Px; [|reflexivity].
      symmetry. apply insert_note_front.
      apply by_updatedAt_desc_le in E.
      assert (Hall' : Forall (newer_first x) (y :: r)).
      { constructor; [exact E|]. eapply Forall_impl; [|exact Hall].
        intros z Hz. eapply newer_first_trans; eauto. }
      rewrite Forall_forall in *. intros z Hz.
      apply Hall'. change (In z (List.filter p (y :: r))) in Hz.
      apply filter_In in Hz. tauto.
    + rewrite IH. destruct (p y) eqn:Py, (p x) eqn:Px; simpl; try reflexivity.
      now rewrite E.
Qed.

Lemma sort_notes_filter (p : Note -> bool) l :
  sort_notes (List.filter p l) = List.filter p (sort_notes l).
Proof.
  induction l as [|x r IH]; simpl; [reflexivity|].
  rewrite filter_insert_note by apply sort_notes_sorted.
  destruct (p x); simpl; now rewrite IH.
Qed.

(** The first element of a sorted list is the strictly newest one, when
    there is one. *)
Lemma sorted_desc_head x l :
  sorted_desc l -> In x l ->
  (forall y, In y l -> y <> x -> (note_updatedAt y < note_updatedAt x)%Z) ->
  exists rest, l = x :: rest.
Proof.
  intros Hs Hin Hnew. destruct l as [|h r]; [destruct Hin|].
  exists r. f_equal.
  destruct Hin as [->|Hin]; [reflexivity|].
  inversion Hs as [|? ? _ Hall]; subst.
  rewrite Forall_forall in Hall. specialize (Hall _ Hin). unfold newer_first in Hall.
  assert (Hdec : {h = x} + {h <> x}).
  { repeat decide equality. }
  destruct Hdec as [->|Hne]; [reflexivity|].
  specialize (Hnew h (or_introl eq_refl) Hne). lia.
Qed.

(** *** Substrings *)

Lemma startsWith_spec s q : JS.startsWith s q = true <-> exists post, s = q ++ post.
Proof.
  revert s. induction q as [|a q IH]; intro s; simpl.
  - split; [intros _; now exists s | reflexivity].
  - destruct s as [|b s].
    + split; [discriminate | intros [post H]; discriminate].
    + rewrite andb_true_iff, IH. split.
      * intros [Hab [post ->]]. apply Ascii.eqb_eq in Hab. subst. now exists post.
      * intros [post [= -> ->]]. split; [apply Ascii.eqb_refl | now exists post].
Qed.

Lemma includes_spec s q : JS.includes s q = true <-> substring_of q s.
Proof.
  unfold substring_of. induction s as [|c s IH].
  - simpl. rewrite orb_false_r, startsWith_spec. split.
    + intros [post H]. now exists "", post.
    + intros [[|? ?] [post H]]; [now exists post | discriminate].
  - cbn [JS.includes]. rewrite orb_true_iff, IH, startsWith_spec. split.
    + intros [[post H]|[pre [post H]]].
      * now exists "", post.
      * exists (String c pre), post. simpl. now rewrite H.
    + intros [[|c' pre] [post H]].
      * left. now exists post.
      * right. injection H as -> H. now exists pre, post.
Qed.

Lemma matches_iff query note :
  MemStorage.matches (JS.toLowerCase query) note = true <-> matches_spec query note.
Proof.
  unfold MemStorage.matches, matches_spec.
  rewrite !orb_true_iff, !includes_spec, existsb_exists.
  setoid_rewrite includes_spec. tauto.
Qed.

(** ** Facts about the store *)

Lemma wf_store_empty : wf_store MemStorage.empty.
Proof. repeat split; try constructor; intros ? ? []. Qed.

Lemma wf_createUser st id now ins :
  wf_store st -> wf_store (fst (MemStorage.createUser st id now ins)).
Proof.
  intros (Hu & Hf & Hn). split; [|split]; simpl; try assumption.
  now apply wf_map_set.
Qed.

Lemma wf_updateUserPassword st id password :
  wf_store st -> wf_store (MemStorage.updateUserPassword st id password).
Proof.
  intros (Hu & Hf & Hn). unfold MemStorage.updateUserPassword.
  destruct (JS.get id (users st)) as [user|] eqn:E; [|exact (conj Hu (conj Hf Hn))].
  split; [|split]; simpl; try assumption.
  apply wf_map_set; [|exact Hu]. simpl. eapply wf_map_get; eauto.
Qed.

Lemma wf_createFolder st id now ins :
  wf_store st -> wf_store (fst (MemStorage.createFolder st id now ins)).
Proof.
  intros (Hu & Hf & Hn). split; [|split]; simpl; try assumption.
  now apply wf_map_set.
Qed.

Lemma wf_updateFolder st id update :
  wf_store st -> wf_store (fst (MemStorage.updateFolder st id update)).
Proof.
  intros (Hu & Hf & Hn). unfold MemStorage.updateFolder.
  destruct (JS.get id (folders st)) as [folder|] eqn:E; [|exact (conj Hu (conj Hf Hn))].
  split; [|split]; simpl; try assumption.
  apply wf_map_set; [|exact Hf]. simpl. eapply wf_map_get; eauto.
Qed.

Lemma wf_createNote st id now ins :
  wf_store st -> wf_store (fst (MemStorage.createNote st id now ins)).
Proof.
  intros (Hu & Hf & Hn). split; [|split]; simpl; try assumption.
  now apply wf_map_set.
Qed.

Lemma wf_updateNote st id update now :
  wf_store st -> wf_store (fst (MemStorage.updateNote st id update now)).
Proof.
  intros (Hu & Hf & Hn). unfold MemStorage.updateNote.
  destruct (JS.get id (notes st)) as [note|] eqn:E; [|exact (conj Hu (conj Hf Hn))].
  split; [|split]; simpl; try assumption.
  apply wf_map_set; [|exact Hn]. simpl. eapply wf_map_get; eauto.
Qed.

Lemma wf_deleteNote st id : wf_store st -> wf_store (MemStorage.deleteNote st id).
Proof.
  intros (Hu & Hf & Hn). split; [|split]; simpl; try assumption.
  now apply wf_map_delete.
Qed.

Lemma filter_twice {A : Type} (f g : A -> bool) (l : list A) :
  List.filter f (List.filter g l) = List.filter (fun x => g x && f x) l.
Proof.
  induction l as [|x l IH]; simpl; [reflexivity|].
  destruct (g x); simpl; [destruct (f x)|]; now rewrite IH.
Qed.

(** The loop of [deleteFolder] over the notes to delete. *)
Lemma fold_delete_filter (l : list Note) (m : JS.Map Note) :
  NoDup (JS.keys m) ->
  List.fold_left (fun m note => JS.delete (note_id note) m) l m =
  List.filter (fun kv => negb (List.existsb (fun note => fst kv =? note_id note) l)) m.
Proof.
  revert m. induction l as [|a l IH]; intros m ND; simpl.
  - symmetry. apply forallb_filter_id. now apply forallb_forall.
  - rewrite IH by (rewrite delete_filter by exact ND; now apply NoDup_keys_filter).
    rewrite delete_filter by exact ND.
    rewrite filter_twice. apply filter_ext. intros [k v]. simpl.
    now rewrite negb_orb.
Qed.

(** The cascade removes the notes of the folder and keeps the others, in
    their order. *)
Lemma deleteFolder_notes st id :
  wf_map note_id (notes st) ->
  notes (MemStorage.deleteFolder st id) =
  List.filter (fun kv => negb (is_string (note_folderId (snd kv)) id)) (notes st).
Proof.
  intros Hwf. pose proof Hwf as [ND Hk]. unfold MemStorage.deleteFolder. simpl.
  rewrite fold_delete_filter by exact ND.
  apply filter_ext_in. intros [k v] Hin. simpl. f_equal.
  destruct (is_string (note_folderId v) id) eqn:E.
  - apply existsb_exists. exists v. split.
    + apply filter_In. split; [|exact E]. apply In_values. now exists k.
    + rewrite (Hk _ _ Hin). apply String.eqb_refl.
  - apply not_true_is_false. intro H. apply existsb_exists in H.
    destruct H as [n [Hn Hid]]. apply filter_In in Hn. destruct Hn as [Hn Hf].
    apply String.eqb_eq in Hid.
    assert (JS.get k (notes st) = Some n)
      by (eapply wf_map_value; eauto).
    assert (JS.get k (notes st) = Some v) by now apply In_get.
    congruence.
Qed.

Lemma wf_deleteFolder st id : wf_store st -> wf_store (MemStorage.deleteFolder st id).
Proof.
  intros (Hu & Hf & Hn). split; [|split].
  - exact Hu.
  - simpl. now apply wf_map_delete.
  - rewrite deleteFolder_notes by exact Hn. now apply wf_map_filter.
Qed.

(** Every store the operations build is well formed. *)
Lemma reachable_wf st : reachable st -> wf_store st.
Proof.
  induction 1 as [|st st' _ IH Hstep]; [apply wf_store_empty|].
  destruct Hstep.
  - now apply wf_createUser.
  - now apply wf_updateUserPassword.
  - now apply wf_createFolder.
  - now apply wf_updateFolder.
  - now apply wf_deleteFolder.
  - now apply wf_createNote.
  - now apply wf_updateNote.
  - now apply wf_deleteNote.
Qed.

(** ** The read queries and their owner *)

(** The three queries that take the user keep to that user's notes. *)
Lemma user_queries_scoped st userId query n :
  (In n (MemStorage.getNotesByUserId st userId) -> note_userId n = userId) /\
  (In n (MemStorage.getPinnedNotes st userId) -> note_userId n = userId) /\
  (In n (MemStorage.searchNotes st userId query) -> note_userId n = userId).
Proof.
  unfold MemStorage.getNotesByUserId, MemStorage.getPinnedNotes, MemStorage.searchNotes.
  rewrite !sort_notes_In, !filter_In, !andb_true_iff, !String.eqb_eq. tauto.
Qed.

(** C1.  The claim is that every note a read query returns belongs to the
    calling user.  The folder query does not look at the user: Alice,
    asking for the notes of folder [f1], receives the note Bob keeps
    there. *)
Theorem folder_query_crosses_owners :
  exists n,
    Routes.get_notes Sample.bobs_note (Some Sample.alice)
                     (mkNotesQuery (Some "f1") None None) = NotesOk [n] /\
    MemStorage.getNotesByFolderId Sample.bobs_note "f1" = [n] /\
    note_userId n = Sample.bob /\
    note_userId n <> Sample.alice.
Proof.
  eexists. split; [reflexivity|]. split; [reflexivity|]. split; [reflexivity|].
  discriminate.
Qed.

(** ** Updating a note *)

(** What [updateNote] does hold: fields left out keep their value, the
    time stamp is the time of the call, and a content that is not empty
    gets its word count. *)
Lemma updateNote_fields st id update now note :
  MemStorage.getNote st id = Some note ->
  exists updated,
    MemStorage.updateNote st id update now =
      (mkStore (users st) (folders st) (JS.set id updated (notes st)), Some updated) /\
    MemStorage.getNote (fst (MemStorage.updateNote st id update now)) id = Some updated /\
    note_updatedAt updated = now /\
    note_id updated = note_id note /\
    note_userId updated = note_userId note /\
    note_createdAt updated = note_createdAt note /\
    note_encryptedContent updated = note_encryptedContent note /\
    note_title updated = if_defined (un_title update) (note_title note) /\
    note_content updated = if_defined (un_content update) (note_content note) /\
    note_tags updated = if_defined (un_tags update) (note_tags note) /\
    note_isPinned updated = if_defined (un_isPinned update) (note_isPinned note) /\
    note_folderId updated = if_defined (un_folderId update) (note_folderId note) /\
    (un_content update = None -> note_wordCount updated = note_wordCount note) /\
    (forall content, un_content update = Some content -> content <> "" ->
       note_wordCount updated = JS.toString (MemStorage.countWords content)).
Proof.
  unfold MemStorage.getNote, MemStorage.updateNote. intros ->.
  eexists. split; [reflexivity|]. simpl. rewrite get_set_eq.
  repeat (split; [reflexivity|]). split.
  - now intros ->.
  - intros content -> Hne. unfold JS.truthy.
    destruct (String.eqb_spec content ""); [contradiction | reflexivity].
Qed.

(** C2.  The claim is that a supplied content, the empty string included,
    has its word count stored.  The count is recomputed only when the new
    content is truthy: emptying a note of three words leaves ["3"] where
    the count of the new content is ["0"]. *)
Theorem empty_content_keeps_word_count :
  exists old updated,
    MemStorage.getNote Sample.bobs_note "n1" = Some old /\
    note_wordCount old = "3" /\
    snd (MemStorage.updateNote Sample.bobs_note "n1"
           (mkUpdateNote None (Some "") None None None) 5000%Z) = Some updated /\
    note_content updated = "" /\
    note_wordCount updated = "3" /\
    JS.toString (MemStorage.countWords (note_content updated)) = "0".
Proof.
  do 2 eexists. repeat (split; [reflexivity|]). reflexivity.
Qed.

(** ** Deleting *)

Lemma is_string_iff (a : option string) (id : string) :
  is_string a id = true <-> a = Some id.
Proof.
  destruct a as [s|]; simpl; [|split; discriminate].
  rewrite String.eqb_eq. split; [now intros -> | now intros [= ->]].
Qed.

Lemma is_string_false (a : option string) (id : string) :
  is_string a id = false <-> a <> Some id.
Proof.
  rewrite <- is_string_iff. destruct (is_string a id); split; congruence.
Qed.

Lemma deleteFolder_getNote st id k :
  wf_store st ->
  MemStorage.getNote (MemStorage.deleteFolder st id) k =
  match MemStorage.getNote st k with
  | Some n => if outside id n then Some n else None
  | None => None
  end.
Proof.
  intros (_ & _ & Hn). unfold MemStorage.getNote.
  rewrite deleteFolder_notes by exact Hn.
  apply (get_filter (outside id)). apply Hn.
Qed.

(** Every listing of the store after [deleteFolder] is the listing of the
    store before it without the notes of the folder, in the same order. *)
Lemma deleteFolder_listing st id (p : Note -> bool) :
  wf_store st ->
  sort_notes (List.filter p (JS.values (notes (MemStorage.deleteFolder st id)))) =
  List.filter (outside id) (sort_notes (List.filter p (JS.values (notes st)))).
Proof.
  intros (_ & _ & Hn). rewrite deleteFolder_notes by exact Hn.
  rewrite (values_filter (outside id)), <- sort_notes_filter, !filter_twice.
  f_equal. apply filter_ext. intro n. apply andb_comm.
Qed.

Lemma store_eq st us fs ns :
  users st = us -> folders st = fs -> notes st = ns -> mkStore us fs ns = st.
Proof. destruct st. simpl. congruence. Qed.

(** C3, as the code has it.  Deleting a note identifier that is not in
    the store leaves the store as it is, and both delete requests of an
    authenticated caller answer with success.  Deleting a folder
    identifier that is not in the store leaves the users, the folders and
    every note that does not name this identifier as they are, and
    removes every note that names it; so the store is as before exactly
    when no note names the identifier. *)
Theorem delete_missing_identifier st id :
  (MemStorage.getNote st id = None -> MemStorage.deleteNote st id = st) /\
  (forall sess, requireAuth sess <> None ->
     snd (Routes.delete_note st sess id) = Success /\
     snd (Routes.delete_folder st sess id) = Success) /\
  (wf_store st -> MemStorage.getFolder st id = None ->
     users (MemStorage.deleteFolder st id) = users st /\
     folders (MemStorage.deleteFolder st id) = folders st /\
     (forall k n, MemStorage.getNote st k = Some n -> note_folderId n <> Some id ->
        MemStorage.getNote (MemStorage.deleteFolder st id) k = Some n) /\
     (forall k n, MemStorage.getNote st k = Some n -> note_folderId n = Some id ->
        MemStorage.getNote (MemStorage.deleteFolder st id) k = None) /\
     (forall k, MemStorage.getNote st k = None ->
        MemStorage.getNote (MemStorage.deleteFolder st id) k = None) /\
     (MemStorage.deleteFolder st id = st <->
      forall n, In n (JS.values (notes st)) -> note_folderId n <> Some id)).
Proof.
  split; [|split].
  - unfold MemStorage.getNote, MemStorage.deleteNote. intro H.
    apply store_eq; try reflexivity. symmetry. now apply delete_absent.
  - intros sess Hauth. unfold Routes.delete_note, Routes.delete_folder.
    destruct (requireAuth sess); [now split | contradiction].
  - intros Hwf Hf. unfold MemStorage.getFolder in Hf.
    assert (Hfold : folders (MemStorage.deleteFolder st id) = folders st)
      by (simpl; now apply delete_absent).
    split; [reflexivity|]. split; [exact Hfold|].
    split; [|split; [|split; [|split]]].
    + intros k n Hk Hne. rewrite deleteFolder_getNote, Hk by exact Hwf.
      unfold outside. apply is_string_false in Hne. now rewrite Hne.
    + intros k n Hk He. rewrite deleteFolder_getNote, Hk by exact Hwf.
      unfold outside. apply is_string_iff in He. now rewrite He.
    + intros k Hk. now rewrite deleteFolder_getNote, Hk by exact Hwf.
    + intros Hsame n Hin He. pose proof Hwf as (_ & _ & Hn).
      pose proof (wf_map_value note_id (note_id n) n (notes st) Hn Hin eq_refl) as Hget.
      pose proof (deleteFolder_getNote st id (note_id n) Hwf) as Hdel.
      rewrite Hsame in Hdel. unfold MemStorage.getNote in Hdel. rewrite Hget in Hdel.
      unfold outside in Hdel. apply is_string_iff in He. rewrite He in Hdel.
      discriminate Hdel.
    + intro Hall. destruct Hwf as (Hu & Hfo & Hn).
      pose proof (deleteFolder_notes st id Hn) as Hnotes.
      rewrite forallb_filter_id in Hnotes.
      * unfold MemStorage.deleteFolder in *. simpl in *.
        apply store_eq; [reflexivity | now symmetry | now symmetry].
      * apply forallb_forall. intros [k n] Hin. simpl.
        apply negb_true_iff, is_string_false, Hall, In_values. now exists k.
Qed.

(** The claim C3 as the specification words it fails: a note may name a
    folder that was never created, and deleting that folder identifier
    removes the note. *)
Lemma delete_missing_folder_removes_note :
  wf_store Sample.dangling /\
  MemStorage.getFolder Sample.dangling "ghost" = None /\
  MemStorage.getNote Sample.dangling "n1" <> None /\
  snd (Routes.delete_folder Sample.dangling (Some Sample.bob) "ghost") = Success /\
  MemStorage.getNote (MemStorage.deleteFolder Sample.dangling "ghost") "n1" = None /\
  MemStorage.deleteFolder Sample.dangling "ghost" <> Sample.dangling.
Proof.
  split; [apply wf_createNote, wf_store_empty|].
  split; [reflexivity|]. split; [discriminate|]. split; [reflexivity|].
  split; [reflexivity|]. discriminate.
Qed.

Lemma wf_two_notes : wf_store Sample.two_notes.
Proof.
  apply wf_createNote, wf_createNote, wf_createFolder, wf_store_empty.
Qed.

Lemma delete_missing_identifier_witness :
  MemStorage.deleteNote Sample.two_notes "ghost" = Sample.two_notes /\
  snd (Routes.delete_folder Sample.two_notes (Some Sample.bob) "ghost") = Success /\
  MemStorage.deleteFolder Sample.two_notes "ghost" = Sample.two_notes /\
  MemStorage.getNote (MemStorage.deleteFolder Sample.dangling "ghost") "n1" = None /\
  MemStorage.deleteFolder Sample.dangling "ghost" <> Sample.dangling.
Proof.
  destruct (delete_missing_identifier Sample.two_notes "ghost") as (Hn & Hr & Hf).
  destruct (Hf wf_two_notes eq_refl) as (_ & _ & _ & _ & _ & Hiff).
  destruct (delete_missing_identifier Sample.dangling "ghost") as (_ & _ & Hg).
  destruct (Hg (wf_createNote _ _ _ _ wf_store_empty) eq_refl)
    as (_ & _ & _ & Hgone & _ & Hiff').
  split; [apply Hn; reflexivity|].
  split; [apply (Hr (Some Sample.bob)); discriminate|].
  split; [apply Hiff; simpl; intros n [<-|[<-|[]]]; discriminate|].
  split; [eapply Hgone; reflexivity|].
  intro Hsame. apply (proj1 Hiff' Hsame _ (or_introl eq_refl)). reflexivity.
Defined.

(** C4.  Deleting a folder that is in the store removes it and the notes
    whose [folderId] is its identifier, whatever else they hold, and
    nothing more: the users, the other folders (child folders among them)
    and the notes with another [folderId] or none stay as they are, and
    each listing afterwards is the listing before without the notes of
    the folder. *)
Theorem deleteFolder_cascade st id F :
  wf_store st ->
  MemStorage.getFolder st id = Some F ->
  let st' := MemStorage.deleteFolder st id in
  MemStorage.getFolder st' id = None /\
  (forall k, k <> id -> MemStorage.getFolder st' k = MemStorage.getFolder st k) /\
  users st' = users st /\
  (forall k n, MemStorage.getNote st k = Some n -> note_folderId n = Some id ->
     MemStorage.getNote st' k = None) /\
  (forall k n, MemStorage.getNote st k = Some n -> note_folderId n <> Some id ->
     MemStorage.getNote st' k = Some n) /\
  (forall k, MemStorage.getNote st k = None -> MemStorage.getNote st' k = None) /\
  (forall userId,
     MemStorage.getNotesByUserId st' userId =
     List.filter (outside id) (MemStorage.getNotesByUserId st userId)) /\
  (forall userId,
     MemStorage.getPinnedNotes st' userId =
     List.filter (outside id) (MemStorage.getPinnedNotes st userId)) /\
  (forall userId query,
     MemStorage.searchNotes st' userId query =
     List.filter (outside id) (MemStorage.searchNotes st userId query)) /\
  (forall folderId,
     MemStorage.getNotesByFolderId st' folderId =
     List.filter (outside id) (MemStorage.getNotesByFolderId st folderId)) /\
  (forall userId n, In n (MemStorage.getNotesByUserId st userId) ->
     note_folderId n <> Some id -> In n (MemStorage.getNotesByUserId st' userId)).
Proof.
  intros Hwf HF st'. pose proof Hwf as (Hu & Hf & Hn).
  assert (Hlist : forall userId,
     MemStorage.getNotesByUserId st' userId =
     List.filter (outside id) (MemStorage.getNotesByUserId st userId))
    by (intro; now apply deleteFolder_listing).
  split; [|split; [|split; [|split; [|split; [|split]]]]].
  - unfold MemStorage.getFolder. subst st'. simpl. apply get_delete_eq, Hf.
  - intros k Hk. unfold MemStorage.getFolder. subst st'. simpl.
    apply get_delete_ne. congruence.
  - reflexivity.
  - intros k n Hk Hid. subst st'. rewrite deleteFolder_getNote, Hk by exact Hwf.
    unfold outside. apply is_string_iff in Hid. now rewrite Hid.
  - intros k n Hk Hid. subst st'. rewrite deleteFolder_getNote, Hk by exact Hwf.
    unfold outside. apply is_string_false in Hid. now rewrite Hid.
  - intros k Hk. subst st'. now rewrite deleteFolder_getNote, Hk by exact Hwf.
  - split; [exact Hlist|].
    split; [intro; now apply deleteFolder_listing|].
    split; [intros; now apply deleteFolder_listing|].
    split; [intro; now apply deleteFolder_listing|].
    intros userId n Hin Hid. rewrite Hlist. apply filter_In. split; [exact Hin|].
    unfold outside. apply is_string_false in Hid. now rewrite Hid.
Qed.

Lemma deleteFolder_cascade_witness :
  MemStorage.getNotesByUserId Sample.two_notes Sample.bob <> [] /\
  exists n2,
    MemStorage.getNote Sample.two_notes "n2" = Some n2 /\
    MemStorage.getFolder (MemStorage.deleteFolder Sample.two_notes "f1") "f1" = None /\
    MemStorage.getNote (MemStorage.deleteFolder Sample.two_notes "f1") "n1" = None /\
    MemStorage.getNote (MemStorage.deleteFolder Sample.two_notes "f1") "n2" = Some n2 /\
    MemStorage.getNotesByUserId (MemStorage.deleteFolder Sample.two_notes "f1") Sample.bob
      = [n2].
Proof.
  split; [discriminate|]. eexists. split; [reflexivity|].
  destruct (deleteFolder_cascade Sample.two_notes "f1" _ wf_two_notes eq_refl)
    as (H1 & _ & _ & H4 & H5 & _ & H7 & _).
  split; [exact H1|].
  split; [eapply H4; reflexivity|].
  split; [apply H5; [reflexivity | discriminate]|].
  rewrite H7. reflexivity.
Defined.

(** ** Order of the listings *)

Lemma updated_note_first st id update now note :
  wf_store st ->
  MemStorage.getNote st id = Some note ->
  (forall k other, MemStorage.getNote st k = Some other -> k <> id ->
     note_userId other = note_userId note -> (note_updatedAt other < now)%Z) ->
  exists updated rest,
    snd (MemStorage.updateNote st id update now) = Some updated /\
    MemStorage.getNotesByUserId (fst (MemStorage.updateNote st id update now))
      (note_userId note) = updated :: rest.
Proof.
  intros Hwf Hget Hnew.
  destruct (updateNote_fields st id update now note Hget)
    as (updated & Heq & Hget' & Hat & _ & Howner & _).
  pose proof (wf_updateNote st id update now Hwf) as (_ & _ & [ND' _]).
  destruct Hwf as (_ & _ & [ND _]).
  rewrite Heq in *. simpl in *. unfold MemStorage.getNote in *. simpl in *.
  exists updated.
  destruct (sorted_desc_head updated
              (MemStorage.getNotesByUserId
                 (mkStore (users st) (folders st) (JS.set id updated (notes st)))
                 (note_userId note))) as [rest Hrest].
  - apply sort_notes_sorted.
  - unfold MemStorage.getNotesByUserId. apply sort_notes_In, filter_In. simpl. split.
    + apply In_values. exists id. now apply get_Some_In.
    + rewrite Howner. apply String.eqb_refl.
  - intros y Hy Hne. unfold MemStorage.getNotesByUserId in Hy.
    apply sort_notes_In, filter_In in Hy. simpl in Hy. destruct Hy as [Hy Hown].
    apply String.eqb_eq in Hown. apply In_values in Hy. destruct Hy as [k Hin].
    rewrite Hat. destruct (string_dec k id) as [->|Hk].
    + apply In_get in Hin; [|exact ND']. congruence.
    + apply (Hnew k y); [|exact Hk|exact Hown].
      apply In_set in Hin. destruct Hin as [[? ?]|Hin]; [contradiction|].
      now apply In_get.
  - exists rest. split; [reflexivity | exact Hrest].
Qed.

(** C5.  Each of the four read queries returns its notes by last-modified
    time, newest first; and a note that is updated at a time later than
    the other notes of its owner is the first of the owner's next
    listing. *)
Theorem listings_newest_first st :
  (forall userId, sorted_desc (MemStorage.getNotesByUserId st userId)) /\
  (forall folderId, sorted_desc (MemStorage.getNotesByFolderId st folderId)) /\
  (forall userId, sorted_desc (MemStorage.getPinnedNotes st userId)) /\
  (forall userId query, sorted_desc (MemStorage.searchNotes st userId query)) /\
  (forall id update now note,
     wf_store st ->
     MemStorage.getNote st id = Some note ->
     (forall k other, MemStorage.getNote st k = Some other -> k <> id ->
        note_userId other = note_userId note -> (note_updatedAt other < now)%Z) ->
     exists updated rest,
       snd (MemStorage.updateNote st id update now) = Some updated /\
       MemStorage.getNotesByUserId (fst (MemStorage.updateNote st id update now))
         (note_userId note) = updated :: rest).
Proof.
  split; [|split; [|split; [|split]]]; try (intros; apply sort_notes_sorted).
  intros id update now note. apply updated_note_first.
Qed.

Lemma listings_newest_first_witness :
  sorted_desc (MemStorage.getNotesByUserId Sample.two_notes Sample.bob) /\
  exists updated rest,
    snd (MemStorage.updateNote Sample.two_notes "n1"
           (mkUpdateNote None None None (Some ["x"]) None) 4000%Z) = Some updated /\
    MemStorage.getNotesByUserId
      (fst (MemStorage.updateNote Sample.two_notes "n1"
              (mkUpdateNote None None None (Some ["x"]) None) 4000%Z)) Sample.bob
      = updated :: rest.
Proof.
  destruct (listings_newest_first Sample.two_notes) as (Hs & _ & _ & _ & H).
  split; [apply Hs|].
  refine (H "n1" _ 4000%Z _ wf_two_notes eq_refl _).
  intros k other Hk Hne _. apply get_Some_In in Hk. cbv in Hk.
  destruct Hk as [Hk|[Hk|[]]]; injection Hk as Hk Ho; subst k other;
    [now contradiction Hne | reflexivity].
Defined.

(** The listing of the sample store before and after the update of its
    older note. *)
Example update_moves_to_front :
  List.map note_id (MemStorage.getNotesByUserId Sample.two_notes Sample.bob)
    = ["n2"; "n1"] /\
  List.map note_id
    (MemStorage.getNotesByUserId
       (fst (MemStorage.updateNote Sample.two_notes "n1"
               (mkUpdateNote None None None (Some ["x"]) None) 4000%Z)) Sample.bob)
    = ["n1"; "n2"].
Proof. split; reflexivity. Qed.

(** ** Search *)

(** C6.  [searchNotes] returns the notes of the user whose lowercased
    title or content, or one of whose lowercased tags, contains the
    lowercased query, and no other note; each as often as it is stored. *)
Theorem searchNotes_exact st userId query :
  (forall n, In n (MemStorage.searchNotes st userId query) <->
             In n (JS.values (notes st)) /\ note_userId n = userId /\
             matches_spec query n) /\
  Permutation (MemStorage.searchNotes st userId query)
    (List.filter (fun n => (note_userId n =? userId) &&
                           MemStorage.matches (JS.toLowerCase query) n)
                 (JS.values (notes st))).
Proof.
  split.
  - intro n. unfold MemStorage.searchNotes.
    rewrite sort_notes_In, filter_In, andb_true_iff, String.eqb_eq, matches_iff.
    tauto.
  - apply sort_notes_perm.
Qed.

(** The search of the specification's example: the title of [n1] and a
    tag of [n2] have the query in them, whatever the case; [n3] has not. *)
Example search_alpha :
  List.map note_id (MemStorage.searchNotes Sample.three_notes Sample.bob "ALPHA")
  = ["n2"; "n1"].
Proof. reflexivity. Qed.

(** ** Looking a user up by name *)

Lemma getUserByUsername_Some st username user :
  MemStorage.getUserByUsername st username = Some user ->
  In user (JS.values (users st)) /\ user_username user = username.
Proof.
  unfold MemStorage.getUserByUsername. intro H. apply find_some in H.
  now rewrite String.eqb_eq in H.
Qed.

Lemma getUserByUsername_None st username :
  MemStorage.getUserByUsername st username = None <->
  forall user, In user (JS.values (users st)) -> user_username user <> username.
Proof.
  unfold MemStorage.getUserByUsername. split.
  - intros H user Hin. apply (find_none _ _ H) in Hin. now apply String.eqb_neq.
  - intro H. destruct (List.find _ _) as [user|] eqn:E; [|reflexivity].
    apply find_some in E. destruct E as [Hin E]. apply String.eqb_eq in E.
    now apply H in Hin.
Qed.

(** A user stored under a name no one has is the one found by that name. *)
Lemma find_after_set username id user (m : JS.Map User) :
  user_username user = username ->
  (forall other, In other (JS.values m) -> user_username other <> username) ->
  List.find (fun u => user_username u =? username) (JS.values (JS.set id user m))
  = Some user.
Proof.
  intros Hname. induction m as [|[k0 v0] r IH]; simpl; intro Hfree.
  - now rewrite Hname, String.eqb_refl.
  - destruct (k0 =? id); simpl.
    + now rewrite Hname, String.eqb_refl.
    + destruct (String.eqb_spec (user_username v0) username) as [E|_].
      * exfalso. apply (Hfree v0); [now left | exact E].
      * apply IH. intros other Hin. apply Hfree. now right.
Qed.

(** The login schema takes a body with valid credentials. *)
Lemma loginSchema_valid body username password :
  body_username body = Some username ->
  body_password body = Some password ->
  valid_credentials username password ->
  loginSchema body = Some (username, password).
Proof.
  intros Hu Hp [Hu1 Hp1]. unfold loginSchema. rewrite Hu, Hp.
  destruct username; [contradiction|]. destruct password; [contradiction|].
  reflexivity.
Qed.

(** ** Registration, login and recovery *)

Section AuthFacts.
Variable bcrypt_hash : string -> string -> string.
Variable bcrypt_compare : string -> string -> bool.

(** A password compares equal to each of its hashes. *)
Hypothesis bcrypt_compare_hash :
  forall password salt, bcrypt_compare password (bcrypt_hash password salt) = true.

(** C7, as the code has it.  A recovery request that does not pass the
    schema fails with the validation error; one that passes it and
    names an unknown user, or a user whose stored recovery key is not
    the supplied one, fails with the recovery error; in both cases the
    store and the session are as before.  When the key is the stored
    one, the password of that user is replaced by the hash of the new
    password, and no other field and no other record changes. *)
Theorem recover_guards st sess body salt :
  (recoverySchema body = None ->
     Routes.recover bcrypt_hash st sess body salt
     = (st, sess, Error 400 "Invalid recovery data")) /\
  (forall username recoveryKey newPassword,
     recoverySchema body = Some (username, recoveryKey, newPassword) ->
     (forall user, In user (JS.values (users st)) -> user_username user <> username) \/
     (exists user, MemStorage.getUserByUsername st username = Some user /\
                   user_recoveryKey user <> recoveryKey) ->
     Routes.recover bcrypt_hash st sess body salt
     = (st, sess, Error 401 "Invalid recovery credentials")) /\
  (forall username recoveryKey newPassword user,
     wf_store st ->
     recoverySchema body = Some (username, recoveryKey, newPassword) ->
     MemStorage.getUserByUsername st username = Some user ->
     user_recoveryKey user = recoveryKey ->
     exists st',
       Routes.recover bcrypt_hash st sess body salt
       = (st', Some (user_id user),
          AuthOk (user_id user) username (user_encryptionKey user)) /\
       MemStorage.getUser st' (user_id user)
       = Some (mkUser (user_id user) (user_username user)
                      (bcrypt_hash newPassword salt)
                      (user_recoveryKey user) (user_encryptionKey user)
                      (user_createdAt user)) /\
       (forall id, id <> user_id user ->
          MemStorage.getUser st' id = MemStorage.getUser st id) /\
       folders st' = folders st /\ notes st' = notes st).
Proof.
  unfold Routes.recover. split; [|split].
  - now intros ->.
  - intros username recoveryKey newPassword -> [Hunknown|(user & -> & Hkey)].
    + apply getUserByUsername_None in Hunknown. now rewrite Hunknown.
    + apply String.eqb_neq in Hkey. now rewrite Hkey.
  - intros username recoveryKey newPassword user Hwf -> Hfind Hkey.
    rewrite Hfind. apply String.eqb_eq in Hkey. rewrite Hkey. simpl.
    destruct (getUserByUsername_Some _ _ _ Hfind) as [Hin Hname].
    destruct Hwf as (Hu & _ & _).
    pose proof (wf_map_value user_id (user_id user) user (users st) Hu Hin eq_refl)
      as Hget.
    eexists. split; [now rewrite Hname|].
    unfold MemStorage.getUser, MemStorage.updateUserPassword. rewrite Hget. simpl.
    split; [apply get_set_eq|]. split; [|now split].
    intros id Hid. apply get_set_ne. congruence.
Qed.

(** C8.  For a user name and a password that are valid (each has a
    character) and a name not yet taken, the registration succeeds, and
    the login that follows it with the same credentials succeeds and
    returns the encryption key the registration returned. *)
Theorem register_then_login st sess body id recoveryKey encryptionKey salt now
        username password :
  body_username body = Some username ->
  body_password body = Some password ->
  valid_credentials username password ->
  (forall user, In user (JS.values (users st)) -> user_username user <> username) ->
  exists st1,
    Routes.register bcrypt_hash st sess body id recoveryKey encryptionKey salt now
    = (st1, Some id, RegisterOk id username recoveryKey encryptionKey) /\
    forall sess1,
      Routes.login bcrypt_compare st1 sess1 body
      = (st1, Some id, AuthOk id username encryptionKey).
Proof.
  intros Hu Hp Hvalid Hfree.
  unfold Routes.register, Routes.login.
  rewrite (loginSchema_valid _ _ _ Hu Hp Hvalid).
  unfold insertUserSchema. rewrite Hu, Hp.
  rewrite (proj2 (getUserByUsername_None st username) Hfree). simpl.
  eexists. split; [reflexivity|]. intro sess1.
  unfold MemStorage.getUserByUsername. simpl.
  rewrite (find_after_set username) by (reflexivity || exact Hfree). simpl.
  now rewrite bcrypt_compare_hash.
Qed.

(** C9.  When a user with the given name is in the store, the
    registration fails with the duplicate-name error whatever the
    password is, and leaves the store and the session as they were. *)
Theorem register_duplicate st sess body id recoveryKey encryptionKey salt now
        username password :
  body_username body = Some username ->
  body_password body = Some password ->
  (exists user, In user (JS.values (users st)) /\ user_username user = username) ->
  Routes.register bcrypt_hash st sess body id recoveryKey encryptionKey salt now
  = (st, sess, Error 400 "Username already exists").
Proof.
  intros Hu Hp (user & Hin & Hname). unfold Routes.register, insertUserSchema.
  rewrite Hu, Hp.
  destruct (MemStorage.getUserByUsername st username) as [found|] eqn:E;
    [reflexivity|].
  exfalso. exact (proj1 (getUserByUsername_None st username) E user Hin Hname).
Qed.
End AuthFacts.

(** The stand-in for bcrypt accepts a password against its hashes. *)
Lemma sample_compare_hash password salt :
  Sample.compare password (Sample.hash password salt) = true.
Proof.
  unfold Sample.hash. induction salt as [|c salt IH]; simpl.
  - destruct password as [|a p]; [reflexivity|].
    cbn [append Sample.compare]. now rewrite String.eqb_refl.
  - rewrite IH. apply orb_true_r.
Qed.

Lemma wf_registered : wf_store Sample.registered.
Proof. apply wf_createUser, wf_store_empty. Qed.

(** The claim C7 as the specification words it fails: with a new password
    of three characters the request is turned down by the schema, with
    the validation error, also when the recovery key is wrong. *)
Lemma recover_short_password_is_invalid_data :
  (exists user, MemStorage.getUserByUsername Sample.registered "alice" = Some user /\
                user_recoveryKey user <> "wrong") /\
  Routes.recover Sample.hash Sample.registered None
    (mkAuthBody (Some "alice") None (Some "wrong") (Some "abc")) "salt"
  = (Sample.registered, None, Error 400 "Invalid recovery data") /\
  Error 400 "Invalid recovery data" <> Error 401 "Invalid recovery credentials".
Proof.
  split; [eexists; split; [reflexivity | discriminate]|].
  split; [reflexivity | discriminate].
Qed.

Lemma recover_guards_witness :
  Routes.recover Sample.hash Sample.registered None
    (mkAuthBody (Some "alice") None (Some "wrong") (Some "abc")) "salt"
  = (Sample.registered, None, Error 400 "Invalid recovery data") /\
  Routes.recover Sample.hash Sample.registered None
    (mkAuthBody (Some "alice") None (Some "wrong") (Some "secret2")) "salt"
  = (Sample.registered, None, Error 401 "Invalid recovery credentials") /\
  Routes.recover Sample.hash Sample.registered None
    (mkAuthBody (Some "carol") None (Some "rk-1") (Some "secret2")) "salt"
  = (Sample.registered, None, Error 401 "Invalid recovery credentials") /\
  exists st',
    Routes.recover Sample.hash Sample.registered None
      (mkAuthBody (Some "alice") None (Some "rk-1") (Some "secret2")) "salt"
    = (st', Some Sample.alice, AuthOk Sample.alice "alice" "ek-1") /\
    option_map user_password (MemStorage.getUser st' Sample.alice) = Some "saltsecret2".
Proof.
  split; [|split; [|split]].
  - apply (recover_guards Sample.hash Sample.registered). reflexivity.
  - eapply (recover_guards Sample.hash Sample.registered); [reflexivity|].
    right. eexists. split; [reflexivity | discriminate].
  - eapply (recover_guards Sample.hash Sample.registered); [reflexivity|].
    left. simpl. intros user [<-|[]]. discriminate.
  - destruct (recover_guards Sample.hash Sample.registered None
                (mkAuthBody (Some "alice") None (Some "rk-1") (Some "secret2")) "salt")
      as (_ & _ & H).
    destruct (H "alice" "rk-1" "secret2" _ wf_registered eq_refl eq_refl eq_refl)
      as (st' & Hr & Hg & _).
    exists st'. split; [exact Hr|].
    exact (f_equal (option_map user_password) Hg).
Defined.

Lemma register_then_login_witness :
  exists st1,
    Routes.register Sample.hash Sample.registered None
      (mkAuthBody (Some "bob") (Some "hunter2") None None)
      Sample.bob "rk-2" "ek-2" "pepper" 600%Z
    = (st1, Some Sample.bob, RegisterOk Sample.bob "bob" "rk-2" "ek-2") /\
    forall sess1,
      Routes.login Sample.compare st1 sess1
        (mkAuthBody (Some "bob") (Some "hunter2") None None)
      = (st1, Some Sample.bob, AuthOk Sample.bob "bob" "ek-2").
Proof.
  apply (register_then_login Sample.hash Sample.compare sample_compare_hash)
    with (password := "hunter2").
  - reflexivity.
  - reflexivity.
  - split; discriminate.
  - simpl. intros user [<-|[]]. discriminate.
Defined.

Lemma register_duplicate_witness :
  Routes.register Sample.hash Sample.registered None
    (mkAuthBody (Some "alice") (Some "other-password") None None)
    Sample.bob "rk-2" "ek-2" "pepper" 600%Z
  = (Sample.registered, None, Error 400 "Username already exists").
Proof.
  apply (register_duplicate Sample.hash)
    with (username := "alice") (password := "other-password").
  - reflexivity.
  - reflexivity.
  - eexists. split; [left; reflexivity | reflexivity].
Defined.

(** ** The folder selection ["none"] *)

(** C10.  An update request whose [folderId] is ["none"] leaves the
    folder of a note that has one as it is; a create request with the
    same value stores a note without a folder. *)
Theorem none_sentinel :
  (forall st sess id body now note folderId,
     requireAuth sess <> None ->
     MemStorage.getNote st id = Some note ->
     note_folderId note = Some folderId ->
     body_folderId body = Some (Some "none") ->
     exists st' updated,
       Routes.put_note st sess id body now = (st', NoteOk updated) /\
       MemStorage.getNote st' id = Some updated /\
       note_folderId updated = Some folderId) /\
  (forall st sess body id now title content,
     requireAuth sess <> None ->
     insertNoteSchema body = Some (title, content) ->
     body_folderId body = Some (Some "none") ->
     exists st' created,
       Routes.post_note st sess body id now = (st', NoteOk created) /\
       MemStorage.getNote st' id = Some created /\
       note_folderId created = None).
Proof.
  split.
  - intros st sess id body now note folderId Hauth Hget Hfolder Hbody.
    unfold Routes.put_note. destruct (requireAuth sess); [|contradiction].
    rewrite Hbody.
    destruct (updateNote_fields st id
                (mkUpdateNote (body_title body) (body_content body) None
                              (body_tags body) (body_isPinned body)) now note Hget)
      as (updated & Heq & Hget' & _ & _ & _ & _ & _ & _ & _ & _ & _ & Hf & _).
    change (none_to_undefined (Some (Some "none"))) with (@None (option string)).
    rewrite Heq in Hget' |- *. do 2 eexists.
    split; [reflexivity|]. split; [exact Hget'|]. now rewrite Hf.
  - intros st sess body id now title content Hauth Hparse Hbody.
    unfold Routes.post_note. destruct (requireAuth sess); [|contradiction].
    rewrite Hparse, Hbody. simpl. do 2 eexists. split; [reflexivity|].
    unfold MemStorage.getNote. simpl. split; [apply get_set_eq | reflexivity].
Qed.

Lemma none_sentinel_witness :
  (exists st' updated,
     Routes.put_note Sample.bobs_note (Some Sample.bob) "n1"
       (mkNoteBody (Some "Beta Plan") None (Some (Some "none")) None None) 4000%Z
     = (st', NoteOk updated) /\
     MemStorage.getNote st' "n1" = Some updated /\
     note_folderId updated = Some "f1") /\
  (exists st' created,
     Routes.post_note Sample.bobs_note (Some Sample.bob)
       (mkNoteBody (Some "Loose") (Some "x y") (Some (Some "none")) None None)
       "n3" 4000%Z
     = (st', NoteOk created) /\
     MemStorage.getNote st' "n3" = Some created /\
     note_folderId created = None).
Proof.
  destruct none_sentinel as [Hput Hpost]. split.
  - eapply Hput; [discriminate | reflexivity | reflexivity | reflexivity].
  - eapply Hpost; [discriminate | reflexivity | reflexivity].
Defined.

(** * Further properties of the store and of the handlers *)

(** ** The word count *)

Lemma split_ws_from_words s :
  (forall cur,
     List.length (List.filter (fun word => (0 <? String.length word)%nat)
                              (JS.split_ws_from cur false s))
     = words_from (0 <? String.length cur)%nat s) /\
  List.length (List.filter (fun word => (0 <? String.length word)%nat)
                           (JS.split_ws_from "" true s))
  = words_from false s.
Proof.
  induction s as [|c r [IH1 IH2]]; simpl.
  - split; [intro cur; now destruct (0 <? String.length cur)%nat | reflexivity].
  - destruct (JS.is_space c); split.
    + intro cur. simpl. destruct (0 <? String.length cur)%nat; simpl; now rewrite IH2.
    + exact IH2.
    + intro cur. rewrite IH1. f_equal. now destruct cur.
    + now rewrite IH1.
Qed.

Lemma countWords_words s : MemStorage.countWords s = words_from false s.
Proof.
  unfold MemStorage.countWords, JS.split_ws.
  now rewrite (proj1 (split_ws_from_words s) "").
Qed.

Lemma words_from_app_space inword s1 c s2 :
  JS.is_space c = true ->
  words_from inword (s1 ++ String c s2) = words_from inword s1 + words_from false s2.
Proof.
  intro Hc. revert inword. induction s1 as [|d r IH]; intro inword; simpl.
  - now rewrite Hc.
  - destruct (JS.is_space d); rewrite IH; lia.
Qed.

Lemma words_from_inword s : 0 < words_from true s.
Proof.
  induction s as [|c r IH]; simpl; [lia|].
  destruct (JS.is_space c); [lia | exact IH].
Qed.

(** X1.  White space between two texts adds their word counts: the count
    of [s1], a white-space character, [s2] is the count of [s1] plus the
    count of [s2]. *)
Theorem countWords_app_space s1 c s2 :
  JS.is_space c = true ->
  MemStorage.countWords (s1 ++ String c s2)
  = MemStorage.countWords s1 + MemStorage.countWords s2.
Proof.
  intro Hc. rewrite !countWords_words. now apply words_from_app_space.
Qed.

Lemma countWords_app_space_witness :
  MemStorage.countWords ("to be" ++ String " " "or not")
  = MemStorage.countWords "to be" + MemStorage.countWords "or not".
Proof. apply countWords_app_space. reflexivity. Defined.

(** X2.  The word count is zero for the texts made of white space only,
    the empty text among them, and for no other text. *)
Theorem countWords_zero_iff s :
  MemStorage.countWords s = 0 <-> blank s = true.
Proof.
  rewrite countWords_words. induction s as [|c r IH]; simpl.
  - tauto.
  - destruct (JS.is_space c); simpl; [exact IH|].
    pose proof (words_from_inword r). split; [lia | discriminate].
Qed.

(** ** Maps after [set] *)

Section MapUpdates.
Context {V : Type} (ident : V -> string).
Implicit Types (m : JS.Map V) (k : string) (v : V).

Lemma set_fresh k v m : JS.get k m = None -> JS.set k v m = (m ++ [(k, v)])%list.
Proof.
  induction m as [|[k0 v0] r IH]; simpl; [reflexivity|].
  destruct (k0 =? k); [discriminate|]. intro H. now rewrite IH.
Qed.

Lemma In_values_set k v m x :
  wf_map ident m -> ident v = k ->
  In x (JS.values (JS.set k v m)) <-> x = v \/ (In x (JS.values m) /\ ident x <> k).
Proof.
  intros Hwf Hid. pose proof (wf_map_set ident k v m Hid Hwf) as [ND' _].
  destruct Hwf as [ND Hk]. split.
  - intro H. apply In_values in H. destruct H as [k' Hin].
    pose proof (In_set _ _ _ _ _ Hin) as [[-> ->]|Hm]; [now left|].
    destruct (string_dec k' k) as [->|Hne].
    + left. apply In_get in Hin; [|exact ND']. rewrite get_set_eq in Hin. congruence.
    + right. split; [apply In_values; now exists k' | now rewrite (Hk _ _ Hm)].
  - intros [->|[Hin Hne]]; apply In_values.
    + exists k. apply get_Some_In, get_set_eq.
    + apply In_values in Hin. destruct Hin as [k' Hin]. exists k'.
      apply get_Some_In. rewrite get_set_ne by (rewrite <- (Hk _ _ Hin); congruence).
      now apply In_get.
Qed.

(** Replacing the value of a key that is present keeps every position. *)
Lemma values_set_present k v m old :
  wf_map ident m -> JS.get k m = Some old ->
  JS.values (JS.set k v m)
  = List.map (fun x => if ident x =? k then v else x) (JS.values m).
Proof.
  intros [ND Hk]. induction m as [|[k0 v0] r IH]; simpl; [discriminate|].
  inversion ND as [|? ? Hnotin ND']; subst.
  assert (Hk0 : ident v0 = k0) by (apply Hk; now left).
  assert (Hr : forall k' v', In (k', v') r -> ident v' = k')
    by (intros; apply Hk; now right).
  rewrite Hk0. destruct (String.eqb_spec k0 k) as [->|Hne]; simpl.
  - intros _. f_equal. unfold JS.values. rewrite <- (map_id (List.map snd r)) at 1.
    apply map_ext_in. intros x Hx. apply (In_values x r) in Hx. destruct Hx as [k' Hx].
    rewrite (Hr _ _ Hx). destruct (String.eqb_spec k' k) as [->|]; [|reflexivity].
    exfalso. apply Hnotin. eapply In_keys; eauto.
  - intro Hget. f_equal. now apply IH.
Qed.
End MapUpdates.

(** ** Creating, pinning and deleting notes *)

Lemma In_listing (p : Note -> bool) (l : list Note) n :
  In n (sort_notes (List.filter p l)) <-> In n l /\ p n = true.
Proof. now rewrite sort_notes_In, filter_In. Qed.

(** X3.  A created note is found again under its identifier, with the
    word count of its content and the time of the call as both time
    stamps; the notes under other identifiers are as before; and the
    owner's listing holds the new note and the notes it held before,
    except a note the identifier was taken from. *)
Theorem createNote_lookup st id now insertNote :
  wf_store st ->
  let st' := fst (MemStorage.createNote st id now insertNote) in
  let note := snd (MemStorage.createNote st id now insertNote) in
  MemStorage.getNote st' id = Some note /\
  note_id note = id /\
  note_userId note = in_userId insertNote /\
  note_wordCount note = JS.toString (MemStorage.countWords (in_content insertNote)) /\
  note_createdAt note = now /\ note_updatedAt note = now /\
  (forall k, k <> id -> MemStorage.getNote st' k = MemStorage.getNote st k) /\
  (forall userId n,
     In n (MemStorage.getNotesByUserId st' userId) <->
     (n = note /\ userId = in_userId insertNote) \/
     (In n (MemStorage.getNotesByUserId st userId) /\ note_id n <> id)).
Proof.
  intros (_ & _ & Hn) st' note. subst st' note. unfold MemStorage.getNote. simpl.
  split; [apply get_set_eq|]. do 5 (split; [reflexivity|]). split.
  - intros k Hk. apply get_set_ne. congruence.
  - intros userId n. unfold MemStorage.getNotesByUserId. simpl.
    rewrite !In_listing, (In_values_set note_id) by (exact Hn || reflexivity).
    rewrite String.eqb_eq. split.
    + intros [[->|[Hin Hne]] Hu]; [left; now split | right; tauto].
    + intros [[-> ->]|[[Hin Hu] Hne]]; [split; [now left | reflexivity] | tauto].
Qed.

Lemma createNote_lookup_witness :
  exists note,
    MemStorage.getNote Sample.two_notes "n2" = Some note /\
    note_wordCount note = "1" /\
    forall n, In n (MemStorage.getNotesByUserId Sample.two_notes Sample.bob) <->
              (n = note /\ Sample.bob = Sample.bob) \/
              (In n (MemStorage.getNotesByUserId Sample.bobs_note Sample.bob) /\
               note_id n <> "n2").
Proof.
  assert (Hwf : wf_store Sample.bobs_note)
    by apply wf_createNote, wf_createFolder, wf_store_empty.
  destruct (createNote_lookup Sample.bobs_note "n2" 3000%Z
              (mkInsertNote "Groceries" "milk" None (Some ["alpha-2"]) (Some true)
                            Sample.bob) Hwf)
    as (Hget & _ & _ & Hwc & _ & _ & _ & Hlist).
  eexists. split; [exact Hget|]. split; [exact Hwc|]. exact (Hlist Sample.bob).
Defined.

(** Every listing of the store after [deleteNote] is the listing before
    without the note of that identifier, in the same order. *)
Lemma deleteNote_listing st id (p : Note -> bool) :
  wf_store st ->
  sort_notes (List.filter p (JS.values (notes (MemStorage.deleteNote st id)))) =
  List.filter (fun n => negb (note_id n =? id))
              (sort_notes (List.filter p (JS.values (notes st)))).
Proof.
  intros (_ & _ & [ND Hk]). simpl. rewrite delete_filter by exact ND.
  rewrite (filter_ext_in _ (fun kv => negb (note_id (snd kv) =? id))).
  - rewrite (values_filter (fun n => negb (note_id n =? id))).
    rewrite <- sort_notes_filter, !filter_twice.
    f_equal. apply filter_ext. intro n. apply andb_comm.
  - intros [k n] Hin. simpl. now rewrite (Hk _ _ Hin).
Qed.

(** X4.  Deleting a note removes the note of that identifier and nothing
    else: the users, the folders and the notes under other identifiers
    are as before, and each listing is the listing before without that
    note, in the same order. *)
Theorem deleteNote_removes_one st id :
  wf_store st ->
  let st' := MemStorage.deleteNote st id in
  MemStorage.getNote st' id = None /\
  (forall k, k <> id -> MemStorage.getNote st' k = MemStorage.getNote st k) /\
  users st' = users st /\ folders st' = folders st /\
  (forall userId,
     MemStorage.getNotesByUserId st' userId =
     List.filter (fun n => negb (note_id n =? id)) (MemStorage.getNotesByUserId st userId)) /\
  (forall folderId,
     MemStorage.getNotesByFolderId st' folderId =
     List.filter (fun n => negb (note_id n =? id))
                 (MemStorage.getNotesByFolderId st folderId)) /\
  (forall userId,
     MemStorage.getPinnedNotes st' userId =
     List.filter (fun n => negb (note_id n =? id)) (MemStorage.getPinnedNotes st userId)) /\
  (forall userId query,
     MemStorage.searchNotes st' userId query =
     List.filter (fun n => negb (note_id n =? id))
                 (MemStorage.searchNotes st userId query)).
Proof.
  intros Hwf st'. pose proof Hwf as (_ & _ & [ND _]). subst st'.
  unfold MemStorage.getNote. simpl.
  split; [now apply get_delete_eq|].
  split; [intros k Hk; apply get_delete_ne; congruence|].
  do 2 (split; [reflexivity|]).
  repeat split; intros; now apply deleteNote_listing.
Qed.

Lemma deleteNote_removes_one_witness :
  MemStorage.getNote (MemStorage.deleteNote Sample.two_notes "n1") "n1" = None /\
  List.map note_id
    (MemStorage.getNotesByUserId (MemStorage.deleteNote Sample.two_notes "n1") Sample.bob)
  = ["n2"].
Proof.
  destruct (deleteNote_removes_one Sample.two_notes "n1" wf_two_notes)
    as (Hget & _ & _ & _ & Hlist & _).
  split; [exact Hget|]. rewrite Hlist. reflexivity.
Defined.

(** X5.  The pinned listing holds pinned notes of the user only.  A
    request that sets nothing but the pin of a note keeps its title,
    content, tags, folder and word count; afterwards the note is in its
    owner's pinned listing exactly when the pin was set, and every other
    note is in a pinned listing exactly when it was before. *)
Theorem pin_toggle st sess id now pinned note :
  wf_store st ->
  requireAuth sess <> None ->
  MemStorage.getNote st id = Some note ->
  exists st' updated,
    Routes.put_note st sess id (mkNoteBody None None None None (Some pinned)) now
    = (st', NoteOk updated) /\
    note_title updated = note_title note /\
    note_content updated = note_content note /\
    note_tags updated = note_tags note /\
    note_folderId updated = note_folderId note /\
    note_wordCount updated = note_wordCount note /\
    (forall userId n, In n (MemStorage.getPinnedNotes st' userId) ->
       note_isPinned n = true /\ note_userId n = userId) /\
    (In updated (MemStorage.getPinnedNotes st' (note_userId note)) <-> pinned = true) /\
    (forall userId n, note_id n <> id ->
       (In n (MemStorage.getPinnedNotes st' userId) <->
        In n (MemStorage.getPinnedNotes st userId))).
Proof.
  intros Hwf Hauth Hget. pose proof Hwf as (_ & _ & Hn).
  unfold Routes.put_note. destruct (requireAuth sess); [|contradiction].
  cbv [body_title body_content body_tags body_isPinned body_folderId
       none_to_undefined is_none_sentinel].
  destruct (updateNote_fields st id (mkUpdateNote None None None None (Some pinned))
              now note Hget)
    as (updated & Heq & _ & _ & Hid & Howner & _ & _ & Ht & Hc & Htags & Hpin & Hf
        & Hwc & _).
  simpl in Ht, Hc, Htags, Hpin, Hf, Hwc. rewrite Heq.
  do 2 eexists. split; [reflexivity|].
  do 4 (split; [assumption|]). split; [now apply Hwc|].
  assert (Hidk : note_id updated = id)
    by (rewrite Hid; eapply wf_map_get; eauto).
  unfold MemStorage.getPinnedNotes. simpl. split; [|split].
  - intros userId n. rewrite In_listing, andb_true_iff, String.eqb_eq. tauto.
  - rewrite In_listing, (In_values_set note_id) by assumption.
    rewrite Howner, String.eqb_refl, Hpin. simpl. split; [tauto|].
    intro Hp. split; [now left | exact Hp].
  - intros userId n Hne. rewrite !In_listing, (In_values_set note_id) by assumption.
    split; [|tauto]. intros [[->|[Hin _]] Hp]; [contradiction | tauto].
Qed.

Lemma pin_toggle_witness :
  exists st' updated,
    Routes.put_note Sample.two_notes (Some Sample.bob) "n1"
      (mkNoteBody None None None None (Some true)) 4000%Z = (st', NoteOk updated) /\
    note_content updated = "a b c" /\
    (In updated (MemStorage.getPinnedNotes st' Sample.bob) <-> true = true).
Proof.
  destruct (pin_toggle Sample.two_notes (Some Sample.bob) "n1" 4000%Z true _
              wf_two_notes ltac:(discriminate) eq_refl)
    as (st' & updated & Hr & _ & Hc & _ & _ & _ & _ & Hpin & _).
  exists st', updated. split; [exact Hr|]. split; [exact Hc | exact Hpin].
Defined.

(** X6.  The notes [GET /api/notes] sends are ordered newest first; and
    unless the request is answered by the folder query (a folder is
    named, without a search text and without [pinned=true]), each of them
    belongs to the user of the session. *)
Theorem get_notes_scoped st sess query l :
  Routes.get_notes st sess query = NotesOk l ->
  sorted_desc l /\
  (JS.truthy_opt (query_search query) = true \/
   is_string (query_pinned query) "true" = true \/
   JS.truthy_opt (query_folderId query) = false ->
   forall n, In n l -> sess = Some (note_userId n)).
Proof.
  unfold Routes.get_notes, requireAuth, unauthenticated.
  destruct sess as [userId|]; [|discriminate].
  destruct (JS.truthy userId); [|discriminate].
  destruct (JS.truthy_opt (query_search query)) eqn:Es;
    [|destruct (is_string (query_pinned query) "true") eqn:Ep;
      [|destruct (JS.truthy_opt (query_folderId query)) eqn:Ef]];
    intros [= <-]; (split; [apply sort_notes_sorted|]).
  - intros _ n Hin. f_equal. symmetry.
    exact (proj2 (proj2 (user_queries_scoped st userId _ n)) Hin).
  - intros _ n Hin. f_equal. symmetry.
    exact (proj1 (proj2 (user_queries_scoped st userId "" n)) Hin).
  - intros [H|[H|H]]; discriminate.
  - intros _ n Hin. f_equal. symmetry.
    exact (proj1 (user_queries_scoped st userId "" n) Hin).
Qed.

Lemma get_notes_scoped_witness :
  Forall (fun n => Some Sample.bob = Some (note_userId n))
         (MemStorage.getPinnedNotes Sample.two_notes Sample.bob).
Proof.
  apply Forall_forall.
  refine (proj2 (get_notes_scoped Sample.two_notes (Some Sample.bob)
                   (mkNotesQuery (Some "f1") None (Some "true")) _ eq_refl) _).
  right. left. reflexivity.
Defined.

(** ** More on users *)

(** Replacing the user found under a name by one of the same name and
    identifier leaves that user to be found. *)
Lemma find_after_replace username user user' (m : JS.Map User) :
  wf_map user_id m ->
  List.find (fun u => user_username u =? username) (JS.values m) = Some user ->
  user_username user' = username ->
  List.find (fun u => user_username u =? username)
            (JS.values (JS.set (user_id user) user' m)) = Some user'.
Proof.
  intros [ND Hk] Hfind Hname. induction m as [|[k0 v0] r IH]; simpl in *; [discriminate|].
  apply NoDup_cons_iff in ND. destruct ND as [Hnotin ND'].
  assert (Hk0 : user_id v0 = k0) by (apply Hk; now left).
  destruct (String.eqb_spec (user_username v0) username) as [E|E].
  - injection Hfind as <-. rewrite Hk0, String.eqb_refl. simpl.
    now rewrite Hname, String.eqb_refl.
  - apply find_some in Hfind as Hin. destruct Hin as [Hin _].
    apply In_values in Hin. destruct Hin as [k' Hin].
    assert (Hk' : user_id user = k') by (apply Hk; now right).
    destruct (String.eqb_spec k0 (user_id user)) as [E0|_].
    + exfalso. apply Hnotin. rewrite E0, Hk'. eapply In_keys; eauto.
    + simpl. destruct (String.eqb_spec (user_username v0) username); [contradiction|].
      apply IH; [exact ND' | intros; apply Hk; now right | exact Hfind].
Qed.

Lemma usernames_set_same (m : JS.Map User) k old v :
  JS.get k m = Some old -> user_username v = user_username old ->
  List.map user_username (JS.values (JS.set k v m))
  = List.map user_username (JS.values m).
Proof.
  intros Hget Hname. induction m as [|[k0 v0] r IH]; simpl in *; [discriminate|].
  destruct (k0 =? k); simpl.
  - injection Hget as ->. now rewrite Hname.
  - now rewrite IH.
Qed.

Lemma usernames_set_new (m : JS.Map User) k v :
  NoDup (List.map user_username (JS.values m)) ->
  (forall x, In x (JS.values m) -> user_username x <> user_username v) ->
  NoDup (List.map user_username (JS.values (JS.set k v m))).
Proof.
  induction m as [|[k0 v0] r IH]; simpl; intros ND Hfree.
  - repeat constructor. intros [].
  - apply NoDup_cons_iff in ND. destruct ND as [Hnotin ND'].
    assert (Hr : forall x, In x (JS.values r) -> user_username x <> user_username v)
      by (intros; apply Hfree; now right).
    destruct (k0 =? k); simpl.
    + constructor; [|exact ND']. rewrite in_map_iff. intros (x & Hx & Hin).
      now apply (Hr x).
    + constructor; [|now apply IH]. rewrite in_map_iff. intros (x & Hx & Hin).
      apply In_values in Hin. destruct Hin as [k' Hin]. apply In_set in Hin.
      destruct Hin as [[_ ->]|Hin].
      * apply (Hfree v0); [now left | now symmetry].
      * apply Hnotin. rewrite <- Hx. apply in_map, In_values. now exists k'.
Qed.

Lemma recoverySchema_lengths body username recoveryKey newPassword :
  recoverySchema body = Some (username, recoveryKey, newPassword) ->
  body_username body = Some username /\ body_recoveryKey body = Some recoveryKey /\
  body_newPassword body = Some newPassword /\
  1 <= String.length username /\ 1 <= String.length recoveryKey /\
  6 <= String.length newPassword.
Proof.
  unfold recoverySchema.
  destruct (body_username body), (body_recoveryKey body), (body_newPassword body);
    try discriminate.
  destruct (_ && _ && _)%bool eqn:E; [|discriminate].
  intros [= -> -> ->]. rewrite !andb_true_iff, !Nat.leb_le in E. tauto.
Qed.

(** ** Recovery, login and the session *)

Lemma loginSchema_lengths username password rk np :
  1 <= String.length username -> 1 <= String.length password ->
  loginSchema (mkAuthBody (Some username) (Some password) rk np)
  = Some (username, password).
Proof.
  intros Hu Hp. unfold loginSchema. cbv [body_username body_password].
  apply Nat.leb_le in Hu, Hp. now rewrite Hu, Hp.
Qed.

Section MoreAuth.
Variable bcrypt_hash : string -> string -> string.
Variable bcrypt_compare : string -> string -> bool.

Hypothesis bcrypt_compare_hash :
  forall password salt, bcrypt_compare password (bcrypt_hash password salt) = true.

(** The store after a recovery that succeeds, and the user in it. *)
Lemma recover_success st sess body salt username recoveryKey newPassword user :
  wf_store st ->
  recoverySchema body = Some (username, recoveryKey, newPassword) ->
  MemStorage.getUserByUsername st username = Some user ->
  user_recoveryKey user = recoveryKey ->
  let user' := mkUser (user_id user) (user_username user)
                      (bcrypt_hash newPassword salt) (user_recoveryKey user)
                      (user_encryptionKey user) (user_createdAt user) in
  let st' := mkStore (JS.set (user_id user) user' (users st)) (folders st) (notes st) in
  Routes.recover bcrypt_hash st sess body salt
  = (st', Some (user_id user),
     AuthOk (user_id user) username (user_encryptionKey user)) /\
  MemStorage.getUserByUsername st' username = Some user' /\
  wf_store st'.
Proof.
  intros Hwf Hparse Hfind Hkey user' st'.
  destruct (getUserByUsername_Some _ _ _ Hfind) as [Hin Hname].
  pose proof Hwf as (Hu & Hf & Hn).
  pose proof (wf_map_value user_id (user_id user) user (users st) Hu Hin eq_refl)
    as Hget.
  unfold Routes.recover. rewrite Hparse, Hfind.
  apply String.eqb_eq in Hkey. rewrite Hkey. simpl.
  unfold MemStorage.updateUserPassword. rewrite Hget. subst username.
  split; [reflexivity|]. split.
  - unfold MemStorage.getUserByUsername. simpl.
    now apply find_after_replace.
  - split; [|split]; try assumption. simpl. now apply wf_map_set.
Qed.

(** X7.  After a recovery that succeeds, the login with the new password
    succeeds and returns the user's encryption key, and a login with a
    password that bcrypt does not accept for the new hash fails and
    leaves the session as it is. *)
Theorem recover_then_login st sess body salt username recoveryKey newPassword user :
  wf_store st ->
  recoverySchema body = Some (username, recoveryKey, newPassword) ->
  MemStorage.getUserByUsername st username = Some user ->
  user_recoveryKey user = recoveryKey ->
  exists st',
    Routes.recover bcrypt_hash st sess body salt
    = (st', Some (user_id user),
       AuthOk (user_id user) username (user_encryptionKey user)) /\
    (forall sess1,
       Routes.login bcrypt_compare st' sess1
         (mkAuthBody (Some username) (Some newPassword) None None)
       = (st', Some (user_id user),
          AuthOk (user_id user) username (user_encryptionKey user))) /\
    (forall sess1 oldPassword,
       bcrypt_compare oldPassword (bcrypt_hash newPassword salt) = false ->
       exists status error,
         Routes.login bcrypt_compare st' sess1
           (mkAuthBody (Some username) (Some oldPassword) None None)
         = (st', sess1, Error status error)).
Proof.
  intros Hwf Hparse Hfind Hkey.
  destruct (recover_success st sess body salt _ _ _ _ Hwf Hparse Hfind Hkey)
    as (Hrec & Hfind' & _).
  destruct (getUserByUsername_Some _ _ _ Hfind) as [_ Hname].
  destruct (recoverySchema_lengths _ _ _ _ Hparse) as (_ & _ & _ & Hu & _ & Hp).
  eexists. split; [exact Hrec|]. split.
  - intro sess1. unfold Routes.login.
    rewrite loginSchema_lengths by lia. rewrite Hfind'. simpl.
    now rewrite bcrypt_compare_hash, Hname.
  - intros sess1 oldPassword Hold. unfold Routes.login.
    destruct (loginSchema _) as [[u p]|] eqn:E; [|now do 2 eexists].
    unfold loginSchema in E. cbv [body_username body_password] in E.
    destruct (_ && _)%bool; [|discriminate]. injection E as <- <-.
    rewrite Hfind'. simpl. rewrite Hold. now do 2 eexists.
Qed.

(** X8.  The recovery key is not used up: after a recovery that
    succeeds, a second recovery with the same key succeeds as well and
    sets the password of the same user. *)
Theorem recover_twice st sess body salt body2 salt2 username recoveryKey
        newPassword newPassword2 user :
  wf_store st ->
  recoverySchema body = Some (username, recoveryKey, newPassword) ->
  recoverySchema body2 = Some (username, recoveryKey, newPassword2) ->
  MemStorage.getUserByUsername st username = Some user ->
  user_recoveryKey user = recoveryKey ->
  exists st' st'',
    Routes.recover bcrypt_hash st sess body salt
    = (st', Some (user_id user),
       AuthOk (user_id user) username (user_encryptionKey user)) /\
    (forall sess1,
       Routes.recover bcrypt_hash st' sess1 body2 salt2
       = (st'', Some (user_id user),
          AuthOk (user_id user) username (user_encryptionKey user))) /\
    option_map user_password (MemStorage.getUser st'' (user_id user))
    = Some (bcrypt_hash newPassword2 salt2).
Proof.
  intros Hwf Hparse Hparse2 Hfind Hkey.
  destruct (recover_success st sess body salt _ _ _ _ Hwf Hparse Hfind Hkey)
    as (Hrec & Hfind' & Hwf').
  do 2 eexists. split; [exact Hrec|]. split.
  - intro sess1.
    exact (proj1 (recover_success _ sess1 body2 salt2 _ _ _ _ Hwf' Hparse2 Hfind' Hkey)).
  - unfold MemStorage.getUser. simpl. now rewrite get_set_eq.
Qed.
End MoreAuth.

Lemma recover_then_login_witness :
  exists st',
    Routes.recover Sample.hash Sample.registered None
      (mkAuthBody (Some "alice") None (Some "rk-1") (Some "secret2")) "salt"
    = (st', Some Sample.alice, AuthOk Sample.alice "alice" "ek-1") /\
    Routes.login Sample.compare st' None
      (mkAuthBody (Some "alice") (Some "secret2") None None)
    = (st', Some Sample.alice, AuthOk Sample.alice "alice" "ek-1") /\
    exists status error,
      Routes.login Sample.compare st' None
        (mkAuthBody (Some "alice") (Some "secret1") None None)
      = (st', None, Error status error).
Proof.
  destruct (recover_then_login Sample.hash Sample.compare sample_compare_hash
              Sample.registered None
              (mkAuthBody (Some "alice") None (Some "rk-1") (Some "secret2")) "salt"
              "alice" "rk-1" "secret2" _ wf_registered eq_refl eq_refl eq_refl)
    as (st' & Hrec & Hnew & Hold).
  exists st'. split; [exact Hrec|]. split; [exact (Hnew None)|].
  apply (Hold None "secret1"). reflexivity.
Defined.

Lemma recover_twice_witness :
  exists st' st'',
    Routes.recover Sample.hash Sample.registered None
      (mkAuthBody (Some "alice") None (Some "rk-1") (Some "secret2")) "salt"
    = (st', Some Sample.alice, AuthOk Sample.alice "alice" "ek-1") /\
    Routes.recover Sample.hash st' None
      (mkAuthBody (Some "alice") None (Some "rk-1") (Some "secret3")) "pepper"
    = (st'', Some Sample.alice, AuthOk Sample.alice "alice" "ek-1") /\
    option_map user_password (MemStorage.getUser st'' Sample.alice)
    = Some "peppersecret3".
Proof.
  destruct (recover_twice Sample.hash Sample.registered None
              (mkAuthBody (Some "alice") None (Some "rk-1") (Some "secret2")) "salt"
              (mkAuthBody (Some "alice") None (Some "rk-1") (Some "secret3")) "pepper"
              "alice" "rk-1" "secret2" "secret3" _ wf_registered
              eq_refl eq_refl eq_refl eq_refl)
    as (st' & st'' & Hrec & Hrec2 & Hpw).
  exists st', st''. split; [exact Hrec|]. split; [exact (Hrec2 None) | exact Hpw].
Defined.

Section AuthInvariants.
Variable bcrypt_hash : string -> string -> string.
Variable bcrypt_compare : string -> string -> bool.

(** X9.  Registration, login and recovery keep the user names of the
    store distinct, whatever the request and whatever they answer. *)
Theorem handlers_keep_usernames_unique st sess body id recoveryKey encryptionKey
        salt now :
  unique_usernames st ->
  unique_usernames
    (fst (fst (Routes.register bcrypt_hash st sess body id recoveryKey encryptionKey
                               salt now))) /\
  unique_usernames (fst (fst (Routes.login bcrypt_compare st sess body))) /\
  unique_usernames (fst (fst (Routes.recover bcrypt_hash st sess body salt))).
Proof.
  unfold unique_usernames. intro Huniq. split; [|split].
  - unfold Routes.register. destruct (insertUserSchema body) as [[username password]|];
      [|exact Huniq].
    destruct (MemStorage.getUserByUsername st username) eqn:E; [exact Huniq|].
    simpl. apply usernames_set_new; [exact Huniq|].
    simpl. exact (proj1 (getUserByUsername_None st username) E).
  - unfold Routes.login. destruct (loginSchema body) as [[username password]|];
      [|exact Huniq].
    destruct (MemStorage.getUserByUsername st username); [|exact Huniq].
    now destruct (bcrypt_compare _ _).
  - unfold Routes.recover.
    destruct (recoverySchema body) as [[[username key] newPassword]|]; [|exact Huniq].
    destruct (MemStorage.getUserByUsername st username) as [user|]; [|exact Huniq].
    destruct (negb _); [exact Huniq|]. simpl.
    unfold MemStorage.updateUserPassword.
    destruct (JS.get (user_id user) (users st)) as [stored|] eqn:E; [|exact Huniq].
    simpl. now rewrite (usernames_set_same _ _ stored).
Qed.

(** X10.  A login changes nothing in the store.  With a body the schema
    takes it either succeeds, for a stored user of that name whose hash
    bcrypt accepts, or it answers with one and the same error for an
    unknown name and for a wrong password, and leaves the session as it
    is. *)
Theorem login_uniform st sess body username password :
  loginSchema body = Some (username, password) ->
  fst (fst (Routes.login bcrypt_compare st sess body)) = st /\
  ((exists user,
      In user (JS.values (users st)) /\ user_username user = username /\
      bcrypt_compare password (user_password user) = true /\
      Routes.login bcrypt_compare st sess body
      = (st, Some (user_id user),
         AuthOk (user_id user) username (user_encryptionKey user))) \/
   Routes.login bcrypt_compare st sess body = (st, sess, Error 401 "Invalid credentials")).
Proof.
  intro Hparse. unfold Routes.login. rewrite Hparse.
  destruct (MemStorage.getUserByUsername st username) as [user|] eqn:E;
    [|split; [reflexivity | now right]].
  destruct (getUserByUsername_Some _ _ _ E) as [Hin Hname].
  destruct (bcrypt_compare password (user_password user)) eqn:Ec;
    (split; [reflexivity|]); [left | now right].
  exists user. rewrite Hname. repeat split; assumption.
Qed.
End AuthInvariants.

Lemma handlers_keep_usernames_unique_witness :
  unique_usernames
    (fst (fst (Routes.register Sample.hash Sample.registered None
                 (mkAuthBody (Some "bob") (Some "hunter2") None None)
                 Sample.bob "rk-2" "ek-2" "pepper" 600%Z))).
Proof.
  apply (handlers_keep_usernames_unique Sample.hash Sample.compare).
  repeat constructor; simpl; tauto.
Defined.

Lemma login_uniform_witness :
  Routes.login Sample.compare Sample.registered None
    (mkAuthBody (Some "carol") (Some "secret1") None None)
  = Routes.login Sample.compare Sample.registered None
      (mkAuthBody (Some "alice") (Some "wrong") None None).
Proof.
  destruct (login_uniform Sample.compare Sample.registered None
              (mkAuthBody (Some "carol") (Some "secret1") None None)
              "carol" "secret1" eq_refl) as [_ [(user & Hin & Hname & _)|H1]].
  - exfalso. simpl in Hin. destruct Hin as [<-|[]]. discriminate Hname.
  - destruct (login_uniform Sample.compare Sample.registered None
                (mkAuthBody (Some "alice") (Some "wrong") None None)
                "alice" "wrong" eq_refl) as [_ [(user & Hin & _ & Hc & _)|H2]].
    + exfalso. simpl in Hin. destruct Hin as [<-|[]]. discriminate Hc.
    + now rewrite H1, H2.
Defined.

Lemma requireAuth_Some sess userId :
  requireAuth sess = Some userId -> sess = Some userId /\ userId <> "".
Proof.
  unfold requireAuth, JS.truthy. destruct sess as [u|]; [|discriminate].
  destruct (String.eqb_spec u ""); simpl; [discriminate|].
  intros [= <-]. now split.
Qed.

Lemma requireAuth_id id : id <> "" -> requireAuth (Some id) = Some id.
Proof.
  intro H. unfold requireAuth, JS.truthy.
  now destruct (String.eqb_spec id "").
Qed.

Section SessionFacts.
Variable bcrypt_hash : string -> string -> string.
Variable bcrypt_compare : string -> string -> bool.

(** X11.  The session a registration, a login or a recovery leaves is
    the session of the user it answered with: [GET /api/me] on the store
    and session they return gives the same identifier, name and
    encryption key.  Identifiers are not empty. *)
Theorem me_after_authentication st sess body id recoveryKey encryptionKey salt now :
  (forall st1 sess1 id1 username rk ek,
     id <> "" ->
     Routes.register bcrypt_hash st sess body id recoveryKey encryptionKey salt now
     = (st1, sess1, RegisterOk id1 username rk ek) ->
     Api.me st1 sess1 = AuthOk id1 username ek) /\
  (forall st1 sess1 id1 username ek,
     wf_store st -> id1 <> "" ->
     Routes.login bcrypt_compare st sess body = (st1, sess1, AuthOk id1 username ek) ->
     Api.me st1 sess1 = AuthOk id1 username ek) /\
  (forall st1 sess1 id1 username ek,
     wf_store st -> id1 <> "" ->
     Routes.recover bcrypt_hash st sess body salt = (st1, sess1, AuthOk id1 username ek) ->
     Api.me st1 sess1 = AuthOk id1 username ek).
Proof.
  split; [|split].
  - intros st1 sess1 id1 username rk ek Hid. unfold Routes.register.
    destruct (insertUserSchema body) as [[u p]|]; [|discriminate].
    destruct (MemStorage.getUserByUsername st u); [discriminate|]. simpl.
    intros [= <- <- <- <- <- <-]. unfold Api.me. rewrite requireAuth_id by exact Hid.
    unfold MemStorage.getUser. simpl. now rewrite get_set_eq.
  - intros st1 sess1 id1 username ek (Hu & _ & _) Hid. unfold Routes.login.
    destruct (loginSchema body) as [[u p]|]; [|discriminate].
    destruct (MemStorage.getUserByUsername st u) as [user|] eqn:E; [|discriminate].
    destruct (bcrypt_compare _ _); [|discriminate].
    intros [= <- <- <- <- <-]. unfold Api.me. rewrite requireAuth_id by exact Hid.
    destruct (getUserByUsername_Some _ _ _ E) as [Hin _].
    unfold MemStorage.getUser.
    now rewrite (wf_map_value user_id (user_id user) user (users st) Hu Hin eq_refl).
  - intros st1 sess1 id1 username ek (Hu & _ & _) Hid. unfold Routes.recover.
    destruct (recoverySchema body) as [[[u k] p]|]; [|discriminate].
    destruct (MemStorage.getUserByUsername st u) as [user|] eqn:E; [|discriminate].
    destruct (negb _); [discriminate|].
    intros [= <- <- <- <- <-]. unfold Api.me. rewrite requireAuth_id by exact Hid.
    destruct (getUserByUsername_Some _ _ _ E) as [Hin _].
    unfold MemStorage.getUser, MemStorage.updateUserPassword.
    rewrite (wf_map_value user_id (user_id user) user (users st) Hu Hin eq_refl).
    simpl. now rewrite get_set_eq.
Qed.
End SessionFacts.

Lemma me_after_authentication_witness :
  Api.me Sample.registered (Some Sample.alice) = AuthOk Sample.alice "alice" "ek-1".
Proof.
  destruct (me_after_authentication Sample.hash Sample.compare
              Sample.registered None
              (mkAuthBody (Some "alice") (Some "secret1") None None)
              "x" "" "" "" 0%Z) as (_ & Hlogin & _).
  apply (Hlogin _ _ _ _ _ wf_registered); [discriminate | reflexivity].
Defined.

(** ** Folders *)

Lemma store_ext (a b : Store) :
  users a = users b -> folders a = folders b -> notes a = notes b -> a = b.
Proof. destruct a, b. simpl. congruence. Qed.

Lemma filter_map_same {A : Type} (p : A -> bool) (g : A -> A) (l : list A) :
  (forall x, In x l -> p (g x) = p x) ->
  List.filter p (List.map g l) = List.map g (List.filter p l).
Proof.
  induction l as [|x l IH]; simpl; intro H; [reflexivity|].
  rewrite (H x) by now left. rewrite IH by (intros; apply H; now right).
  now destruct (p x).
Qed.

(** X13.  A folder created under an identifier that is not in use
    belongs to the user of the session and comes last in that user's
    folder list; the folder lists of the other users, the users and the
    notes are as before. *)
Theorem post_folder_appends st sess body id now userId name :
  requireAuth sess = Some userId ->
  body_name body = Some name ->
  MemStorage.getFolder st id = None ->
  exists st' folder,
    Api.post_folder st sess body id now = (st', FolderOk folder) /\
    folder_id folder = id /\ folder_userId folder = userId /\
    folder_name folder = name /\
    MemStorage.getFolder st' id = Some folder /\
    Api.get_folders st' sess
    = FoldersOk (MemStorage.getFoldersByUserId st userId ++ [folder]) /\
    (forall other, other <> userId ->
       MemStorage.getFoldersByUserId st' other = MemStorage.getFoldersByUserId st other) /\
    users st' = users st /\ notes st' = notes st.
Proof.
  intros Hauth Hname Hfresh. unfold Api.post_folder, Api.get_folders, insertFolderSchema.
  rewrite Hauth, Hname. simpl. do 2 eexists. split; [reflexivity|].
  do 3 (split; [reflexivity|]).
  unfold MemStorage.getFolder, MemStorage.getFoldersByUserId in *. simpl.
  split; [apply get_set_eq|].
  rewrite (set_fresh id _ _ Hfresh). unfold JS.values.
  rewrite map_app. split; [|split].
  - rewrite filter_app. simpl. now rewrite String.eqb_refl.
  - intros other Hne. rewrite filter_app. simpl.
    destruct (String.eqb_spec userId other); [congruence|].
    apply app_nil_r.
  - now split.
Qed.

Lemma post_folder_appends_witness :
  exists st' folder,
    Api.post_folder Sample.bobs_folder (Some Sample.bob)
      (mkFolderBody (Some "Home") None (Some (Some "f1"))) "f2" 1500%Z
    = (st', FolderOk folder) /\
    folder_parentId folder = Some "f1" /\
    option_map (List.map folder_id)
      (match Api.get_folders st' (Some Sample.bob) with
       | FoldersOk l => Some l
       | _ => None
       end) = Some ["f1"; "f2"].
Proof.
  destruct (post_folder_appends Sample.bobs_folder (Some Sample.bob)
              (mkFolderBody (Some "Home") None (Some (Some "f1"))) "f2" 1500%Z
              Sample.bob "Home" eq_refl eq_refl eq_refl)
    as (st' & folder & Hr & _ & _ & _ & _ & Hl & _).
  exists st', folder. split; [exact Hr|].
  injection Hr as <- <-. split; [reflexivity|]. rewrite Hl. reflexivity.
Defined.

(** X14.  [PUT /api/folders/:id] of an authenticated caller answers 404
    and changes nothing for an identifier that is not in the store.  For
    a stored folder, each key the body has replaces the value of the
    folder and each key it lacks leaves it; the folder keeps its
    identifier, its owner, its creation time and its place in the
    owner's folder list; users and notes are as before. *)
Theorem put_folder_in_place st sess id body :
  wf_store st ->
  requireAuth sess <> None ->
  (MemStorage.getFolder st id = None ->
     Api.put_folder st sess id body = (st, FolderError 404 "Folder not found")) /\
  (forall folder,
     MemStorage.getFolder st id = Some folder ->
     exists st' updated,
       Api.put_folder st sess id body = (st', FolderOk updated) /\
       MemStorage.getFolder st' id = Some updated /\
       folder_id updated = id /\
       folder_userId updated = folder_userId folder /\
       folder_createdAt updated = folder_createdAt folder /\
       folder_name updated = spread_key (body_name body) (folder_name folder) /\
       folder_emoji updated = spread_key (body_emoji body) (folder_emoji folder) /\
       folder_parentId updated
       = spread_key (body_parentId body) (folder_parentId folder) /\
       (forall userId,
          MemStorage.getFoldersByUserId st' userId
          = List.map (fun f => if folder_id f =? id then updated else f)
                     (MemStorage.getFoldersByUserId st userId)) /\
       users st' = users st /\ notes st' = notes st).
Proof.
  intros (_ & Hf & _) Hauth. unfold Api.put_folder.
  destruct (requireAuth sess); [|contradiction].
  unfold MemStorage.getFolder, MemStorage.updateFolder. split.
  - now intros ->.
  - intros folder Hget. rewrite Hget. do 2 eexists. split; [reflexivity|]. simpl.
    split; [apply get_set_eq|].
    split; [eapply wf_map_get; eauto|]. do 5 (split; [reflexivity|]).
    split; [|now split].
    intro userId. unfold MemStorage.getFoldersByUserId. simpl.
    rewrite (values_set_present folder_id id _ _ folder Hf Hget).
    apply filter_map_same. intros f Hin.
    destruct (String.eqb_spec (folder_id f) id) as [E|_]; [|reflexivity]. simpl.
    pose proof (wf_map_value folder_id id f (folders st) Hf Hin E) as Hgetf.
    congruence.
Qed.

Lemma put_folder_in_place_witness :
  exists st' updated,
    Api.put_folder Sample.two_notes (Some Sample.bob) "f1"
      (mkFolderBody (Some "Office") None (Some None)) = (st', FolderOk updated) /\
    folder_name updated = "Office" /\ folder_parentId updated = None /\
    folder_userId updated = Sample.bob /\
    MemStorage.getFoldersByUserId st' Sample.bob = [updated].
Proof.
  destruct (put_folder_in_place Sample.two_notes (Some Sample.bob) "f1"
              (mkFolderBody (Some "Office") None (Some None)) wf_two_notes)
    as [_ H]; [discriminate|].
  destruct (H _ eq_refl)
    as (st' & updated & Hr & _ & _ & Ho & _ & Hn & _ & Hp & Hl & _).
  exists st', updated. split; [exact Hr|]. split; [exact Hn|]. split; [exact Hp|].
  split; [exact Ho|].
  rewrite Hl. injection Hr as <- <-. reflexivity.
Defined.

(** X15.  Deleting twice is deleting once, for a folder with its cascade
    and for a note. *)
Theorem delete_idempotent st id :
  wf_store st ->
  MemStorage.deleteFolder (MemStorage.deleteFolder st id) id
  = MemStorage.deleteFolder st id /\
  MemStorage.deleteNote (MemStorage.deleteNote st id) id = MemStorage.deleteNote st id.
Proof.
  intro Hwf. pose proof (wf_deleteFolder st id Hwf) as Hwf1.
  pose proof Hwf as (_ & Hf & Hn). split.
  - apply store_ext.
    + reflexivity.
    + simpl. apply delete_absent, get_delete_eq, Hf.
    + rewrite (deleteFolder_notes _ id) by apply Hwf1.
      rewrite deleteFolder_notes by exact Hn. rewrite filter_twice.
      apply filter_ext. intros [k n]. apply andb_diag.
  - apply store_ext; try reflexivity. simpl.
    apply delete_absent, get_delete_eq, Hn.
Qed.

Lemma delete_idempotent_witness :
  MemStorage.deleteFolder (MemStorage.deleteFolder Sample.two_notes "f1") "f1"
  = MemStorage.deleteFolder Sample.two_notes "f1".
Proof. exact (proj1 (delete_idempotent Sample.two_notes "f1" wf_two_notes)). Defined.

(** ** Listings and lookups agree *)

Lemma wf_map_idents {V : Type} (ident : V -> string) (m : JS.Map V) :
  wf_map ident m -> List.map ident (JS.values m) = JS.keys m.
Proof.
  intros [_ Hk]. unfold JS.values, JS.keys. rewrite map_map.
  apply map_ext_in. intros [k v] Hin. simpl. now apply Hk.
Qed.

Lemma NoDup_map_filter {A B : Type} (f : A -> B) (p : A -> bool) (l : list A) :
  NoDup (List.map f l) -> NoDup (List.map f (List.filter p l)).
Proof.
  induction l as [|x l IH]; simpl; intro ND; [constructor|].
  apply NoDup_cons_iff in ND. destruct ND as [Hnotin ND].
  destruct (p x); simpl; [|now apply IH].
  constructor; [|now apply IH]. rewrite in_map_iff in *.
  intros (y & Hy & Hin). apply Hnotin. exists y. split; [exact Hy|].
  apply filter_In in Hin. tauto.
Qed.

Lemma listing_lookup st (p : Note -> bool) :
  wf_store st ->
  (forall n, In n (sort_notes (List.filter p (JS.values (notes st)))) ->
     MemStorage.getNote st (note_id n) = Some n) /\
  NoDup (List.map note_id (sort_notes (List.filter p (JS.values (notes st))))).
Proof.
  intros (_ & _ & Hn). split.
  - intros n Hin. apply In_listing in Hin. destruct Hin as [Hin _].
    now apply (wf_map_value note_id).
  - eapply Permutation_NoDup.
    + apply Permutation_map. symmetry. apply sort_notes_perm.
    + apply NoDup_map_filter. rewrite (wf_map_idents note_id) by exact Hn. apply Hn.
Qed.

(** X16.  In a store built by the operations, a note of a listing is the
    note stored under its identifier, and no listing has two notes with
    the same identifier; the same holds for the folder list of a user. *)
Theorem listings_agree_with_lookup st :
  reachable st ->
  (forall userId,
     (forall n, In n (MemStorage.getNotesByUserId st userId) ->
        MemStorage.getNote st (note_id n) = Some n) /\
     NoDup (List.map note_id (MemStorage.getNotesByUserId st userId))) /\
  (forall folderId,
     (forall n, In n (MemStorage.getNotesByFolderId st folderId) ->
        MemStorage.getNote st (note_id n) = Some n) /\
     NoDup (List.map note_id (MemStorage.getNotesByFolderId st folderId))) /\
  (forall userId,
     (forall n, In n (MemStorage.getPinnedNotes st userId) ->
        MemStorage.getNote st (note_id n) = Some n) /\
     NoDup (List.map note_id (MemStorage.getPinnedNotes st userId))) /\
  (forall userId query,
     (forall n, In n (MemStorage.searchNotes st userId query) ->
        MemStorage.getNote st (note_id n) = Some n) /\
     NoDup (List.map note_id (MemStorage.searchNotes st userId query))) /\
  (forall userId,
     (forall f, In f (MemStorage.getFoldersByUserId st userId) ->
        MemStorage.getFolder st (folder_id f) = Some f) /\
     NoDup (List.map folder_id (MemStorage.getFoldersByUserId st userId))).
Proof.
  intro Hreach. pose proof (reachable_wf st Hreach) as Hwf.
  split; [|split; [|split; [|split]]]; intros; try now apply listing_lookup.
  destruct Hwf as (_ & Hf & _). unfold MemStorage.getFoldersByUserId. split.
  - intros f Hin. apply filter_In in Hin. destruct Hin as [Hin _].
    now apply (wf_map_value folder_id).
  - apply NoDup_map_filter. rewrite (wf_map_idents folder_id) by exact Hf. apply Hf.
Qed.

Lemma reachable_two_notes : reachable Sample.two_notes.
Proof.
  eapply reachable_step; [|apply step_createNote].
  eapply reachable_step; [|apply step_createNote].
  eapply reachable_step; [|apply step_createFolder].
  apply reachable_empty.
Qed.

Lemma listings_agree_with_lookup_witness :
  NoDup (List.map note_id (MemStorage.getNotesByUserId Sample.two_notes Sample.bob)).
Proof.
  exact (proj2 (proj1 (listings_agree_with_lookup Sample.two_notes reachable_two_notes)
                  Sample.bob)).
Defined.

(** ** The tags of the editor *)

Lemma trimStart_blank s : Editor.trimStart s = "" <-> blank s = true.
Proof.
  induction s as [|c r IH]; simpl; [tauto|].
  destruct (JS.is_space c); simpl; [exact IH | split; discriminate].
Qed.

Lemma trimEnd_blank s : Editor.trimEnd s = "" <-> blank s = true.
Proof.
  induction s as [|c r IH]; simpl; [tauto|].
  destruct (JS.is_space c); simpl; [|split; discriminate].
  destruct (String.eqb_spec (Editor.trimEnd r) "") as [E|E].
  - split; [intros _; now apply IH | reflexivity].
  - split; [discriminate | intro H; apply IH in H; contradiction].
Qed.

Lemma blank_trimStart s : blank (Editor.trimStart s) = blank s.
Proof.
  induction s as [|c r IH]; simpl; [reflexivity|].
  destruct (JS.is_space c) eqn:E; simpl; [exact IH | now rewrite E].
Qed.

Lemma trim_blank s : Editor.trim s = "" <-> blank s = true.
Proof. unfold Editor.trim. now rewrite trimEnd_blank, blank_trimStart. Qed.

Lemma trimEnd_idem s : Editor.trimEnd (Editor.trimEnd s) = Editor.trimEnd s.
Proof.
  induction s as [|c r IH]; simpl; [reflexivity|].
  destruct (JS.is_space c && (Editor.trimEnd r =? "")) eqn:E; [reflexivity|].
  simpl. now rewrite IH, E.
Qed.

Lemma trimStart_trim s : Editor.trimStart (Editor.trim s) = Editor.trim s.
Proof.
  unfold Editor.trim. induction s as [|c r IH]; simpl; [reflexivity|].
  destruct (JS.is_space c) eqn:E; [exact IH|].
  simpl. rewrite E. simpl. now rewrite E.
Qed.

Lemma trim_idem s : Editor.trim (Editor.trim s) = Editor.trim s.
Proof.
  unfold Editor.trim at 1. rewrite trimStart_trim. apply trimEnd_idem.
Qed.

Lemma includes_In tags tag : Editor.includes tags tag = true <-> In tag tags.
Proof.
  unfold Editor.includes. rewrite existsb_exists. split.
  - intros (t & Hin & E). apply String.eqb_eq in E. now subst.
  - intro H. exists tag. split; [exact H | apply String.eqb_refl].
Qed.

Lemma NoDup_snoc {A : Type} (l : list A) (x : A) :
  NoDup l -> ~ In x l -> NoDup (l ++ [x]).
Proof.
  intros ND Hx. apply NoDup_rev in ND. rewrite <- (rev_involutive (l ++ [x])).
  apply NoDup_rev. rewrite rev_app_distr. simpl. constructor; [|exact ND].
  now rewrite <- in_rev.
Qed.

(** X17.  Editing the tags keeps them distinct.  [handleAddTag] adds
    nothing but the trimmed input, which is not empty and has no white
    space around it, and adds nothing for an input of white space only;
    [handleRemoveTag] takes the tag out and keeps the others; removing a
    tag that was just added gives the tags back. *)
Theorem tag_editing tags newTag tag :
  NoDup tags ->
  NoDup (fst (Editor.handleAddTag tags newTag)) /\
  (forall t, In t (fst (Editor.handleAddTag tags newTag)) ->
     In t tags \/ (t = Editor.trim newTag /\ t <> "" /\ Editor.trim t = t)) /\
  (blank newTag = true -> Editor.handleAddTag tags newTag = (tags, newTag)) /\
  NoDup (Editor.handleRemoveTag tags tag) /\
  (forall t, In t (Editor.handleRemoveTag tags tag) <-> In t tags /\ t <> tag) /\
  (~ In (Editor.trim newTag) tags ->
   Editor.handleRemoveTag (fst (Editor.handleAddTag tags newTag)) (Editor.trim newTag)
   = tags).
Proof.
  intro ND. unfold Editor.handleAddTag, Editor.handleRemoveTag, JS.truthy.
  split; [|split; [|split; [|split; [|split]]]].
  - destruct (String.eqb_spec (Editor.trim newTag) ""); simpl; [exact ND|].
    destruct (Editor.includes tags (Editor.trim newTag)) eqn:E; simpl; [exact ND|].
    apply NoDup_snoc; [exact ND|]. rewrite <- includes_In. congruence.
  - intro t. destruct (String.eqb_spec (Editor.trim newTag) ""); simpl; [tauto|].
    destruct (Editor.includes tags (Editor.trim newTag)); simpl; [tauto|].
    rewrite in_app_iff. simpl. intros [H|[<-|[]]]; [now left | right].
    split; [reflexivity|]. split; [assumption | apply trim_idem].
  - intro Hb. apply trim_blank in Hb. now rewrite Hb.
  - now apply NoDup_filter.
  - intro t. rewrite filter_In, negb_true_iff, String.eqb_neq. tauto.
  - intro Hnew. destruct (String.eqb_spec (Editor.trim newTag) "") as [E|E]; simpl.
    + apply forallb_filter_id, forallb_forall. intros t Ht.
      apply negb_true_iff, String.eqb_neq. congruence.
    + destruct (Editor.includes tags (Editor.trim newTag)) eqn:Ei;
        [apply includes_In in Ei; contradiction|]. simpl.
      rewrite filter_app. simpl. rewrite String.eqb_refl. simpl. rewrite app_nil_r.
      apply forallb_filter_id, forallb_forall. intros t Ht.
      apply negb_true_iff, String.eqb_neq. congruence.
Qed.

Lemma tag_editing_witness :
  fst (Editor.handleAddTag ["todo"; "work"] "  home ") = ["todo"; "work"; "home"] /\
  NoDup (fst (Editor.handleAddTag ["todo"; "work"] "  home ")) /\
  Editor.handleRemoveTag (fst (Editor.handleAddTag ["todo"; "work"] "  home ")) "home"
  = ["todo"; "work"].
Proof.
  assert (ND : NoDup ["todo"; "work"]).
  { constructor; [simpl; intros [H|[]]; discriminate H|].
    constructor; [simpl; tauto | constructor]. }
  destruct (tag_editing ["todo"; "work"] "  home " "x" ND) as (H1 & _ & _ & _ & _ & H6).
  split; [reflexivity|]. split; [exact H1|]. apply H6.
  simpl. intros [H|[H|[]]]; discriminate H.
Defined.

(** ** The folder tree of the sidebar *)

Module SidebarFacts.
Import Sidebar.

(** What one turn of the second loop does to the roots, to the keys and
    to the [children] arrays. *)
Lemma attach_step folderMap tree folder :
  snd (attach (folderMap, tree) folder)
  = (tree ++ (if negb (JS.truthy_opt (folder_parentId folder))
                 || negb (has folderMap (if_defined (folder_parentId folder) ""))
              then [folder_id folder] else []))%list /\
  (forall id, has (fst (attach (folderMap, tree) folder)) id = has folderMap id) /\
  (forall id,
     children (fst (attach (folderMap, tree) folder)) id
     = (children folderMap id
        ++ (if has_parent id folder && has folderMap id then [folder_id folder] else []))%list).
Proof.
  unfold attach, has_parent, has, children.
  destruct (folder_parentId folder) as [pid|]; simpl;
    [|split; [reflexivity | split; [reflexivity | intro; now rewrite app_nil_r]]].
  destruct (JS.truthy pid); simpl;
    [|split; [reflexivity | split; [reflexivity | intro; now rewrite app_nil_r]]].
  destruct (JS.get pid folderMap) as [[parent ch]|] eqn:E; simpl.
  - split; [now rewrite app_nil_r|]. split.
    + intro id. destruct (String.eqb_spec pid id) as [<-|Hne].
      * now rewrite get_set_eq, E.
      * now rewrite get_set_ne.
    + intro id. destruct (String.eqb_spec pid id) as [<-|Hne].
      * now rewrite get_set_eq, E.
      * rewrite get_set_ne by exact Hne. now rewrite app_nil_r.
  - split; [reflexivity|]. split; [reflexivity|].
    intro id. destruct (String.eqb_spec pid id) as [<-|Hne]; simpl.
    + rewrite E. now rewrite app_nil_r.
    + now rewrite app_nil_r.
Qed.

Lemma attach_all folders folderMap tree :
  snd (List.fold_left attach folders (folderMap, tree))
  = (tree ++ List.map folder_id
       (List.filter (fun f => negb (JS.truthy_opt (folder_parentId f))
                              || negb (has folderMap (if_defined (folder_parentId f) "")))
                    folders))%list /\
  (forall id, has (fst (List.fold_left attach folders (folderMap, tree))) id
              = has folderMap id) /\
  (forall id,
     children (fst (List.fold_left attach folders (folderMap, tree))) id
     = (children folderMap id
        ++ List.map folder_id
             (List.filter (fun f => has_parent id f && has folderMap id) folders))%list).
Proof.
  revert folderMap tree. induction folders as [|f l IH]; intros folderMap tree.
  - simpl. split; [now rewrite app_nil_r|]. split; [reflexivity|].
    intro; now rewrite app_nil_r.
  - cbn [List.fold_left List.filter].
    destruct (attach_step folderMap tree f) as (Ht & Hh & Hc).
    destruct (attach (folderMap, tree) f) as [fm1 tree1] eqn:E. simpl in Ht, Hh, Hc.
    destruct (IH fm1 tree1) as (Ht' & Hh' & Hc'). split; [|split].
    + rewrite Ht', Ht, <- app_assoc. f_equal.
      rewrite (filter_ext _ (fun f0 =>
                 negb (JS.truthy_opt (folder_parentId f0))
                 || negb (has folderMap (if_defined (folder_parentId f0) ""))))
        by (intro; now rewrite Hh).
      now destruct (_ || _).
    + intro id. now rewrite Hh', Hh.
    + intro id. rewrite Hc', Hc, <- app_assoc. f_equal.
      rewrite (filter_ext _ (fun f0 => has_parent id f0 && has folderMap id))
        by (intro; now rewrite Hh).
      now destruct (_ && _).
Qed.

Lemma createNodes_from folders acc id :
  has (List.fold_left
         (fun folderMap folder => JS.set (folder_id folder) (folder, []) folderMap)
         folders acc) id
  = has acc id || List.existsb (fun f => folder_id f =? id) folders /\
  ((forall k, children acc k = []) ->
   children (List.fold_left
               (fun folderMap folder => JS.set (folder_id folder) (folder, []) folderMap)
               folders acc) id = []).
Proof.
  revert acc. induction folders as [|f l IH]; intro acc; simpl.
  - split; [now rewrite orb_false_r | auto].
  - destruct (IH (JS.set (folder_id f) (f, []) acc)) as [Hh Hc]. split.
    + rewrite Hh. unfold has.
      destruct (String.eqb_spec (folder_id f) id) as [<-|Hne].
      * rewrite get_set_eq. simpl. now rewrite orb_true_r.
      * now rewrite get_set_ne by exact Hne.
    + intro Hacc. apply Hc. intro k. unfold children.
      destruct (String.eqb_spec (folder_id f) k) as [<-|Hne].
      * now rewrite get_set_eq.
      * rewrite get_set_ne by exact Hne. apply Hacc.
Qed.

End SidebarFacts.

Lemma existsb_same {A : Type} (f g : A -> bool) (l : list A) :
  (forall x, f x = g x) -> List.existsb f l = List.existsb g l.
Proof. intro H. induction l as [|x l IH]; simpl; [reflexivity | now rewrite H, IH]. Qed.

Lemma filter_none {A : Type} (l : list A) : List.filter (fun _ => false) l = [].
Proof. now induction l. Qed.

Lemma buildFolderTree_spec folders :
  snd (Sidebar.buildFolderTree folders)
  = List.map folder_id (List.filter (Sidebar.is_root folders) folders) /\
  (forall id,
     Sidebar.children (fst (Sidebar.buildFolderTree folders)) id
     = if List.existsb (fun f => folder_id f =? id) folders
       then List.map folder_id (List.filter (Sidebar.has_parent id) folders)
       else []).
Proof.
  unfold Sidebar.buildFolderTree, Sidebar.createNodes.
  destruct (SidebarFacts.attach_all folders
              (List.fold_left
                 (fun folderMap folder => JS.set (folder_id folder) (folder, []) folderMap)
                 folders []) []) as (Ht & _ & Hc).
  assert (Hhas : forall id,
    Sidebar.has (List.fold_left
                   (fun folderMap folder => JS.set (folder_id folder) (folder, []) folderMap)
                   folders []) id
    = List.existsb (fun f => folder_id f =? id) folders)
    by (intro id; now rewrite (proj1 (SidebarFacts.createNodes_from folders [] id))).
  split.
  - rewrite Ht. simpl. f_equal. apply filter_ext. intro f.
    unfold Sidebar.is_root. rewrite Hhas.
    destruct (folder_parentId f) as [pid|]; simpl; [|reflexivity].
    destruct (JS.truthy pid); simpl; [|reflexivity].
    f_equal. apply existsb_same. intro g. apply String.eqb_sym.
  - intro id. rewrite Hc.
    rewrite (proj2 (SidebarFacts.createNodes_from folders [] id)) by reflexivity.
    rewrite Hhas. simpl. destruct (List.existsb _ folders).
    + f_equal. apply filter_ext. intro f. apply andb_true_r.
    + rewrite (filter_ext _ (fun _ => false)) by (intro; apply andb_false_r).
      now rewrite filter_none.
Qed.

(** X18.  The roots of the folder tree are the folders that name no
    parent or a parent that is not in the list, in the order of the
    list; the children of a folder of the list are the folders that name
    it as their parent, in the order of the list. *)
Theorem folder_tree_shape folders :
  snd (Sidebar.buildFolderTree folders)
  = List.map folder_id (List.filter (Sidebar.is_root folders) folders) /\
  (forall folder,
     In folder folders ->
     Sidebar.children (fst (Sidebar.buildFolderTree folders)) (folder_id folder)
     = List.map folder_id (List.filter (Sidebar.has_parent (folder_id folder)) folders)).
Proof.
  destruct (buildFolderTree_spec folders) as [Ht Hc]. split; [exact Ht|].
  intros folder Hin. rewrite Hc.
  replace (List.existsb _ folders) with true; [reflexivity|].
  symmetry. apply existsb_exists. exists folder. split; [exact Hin | apply String.eqb_refl].
Qed.

(** X19.  Folders that name each other as parents are not drawn: when
    every folder of a set names as its parent a folder of the list that
    is in the set too, [renderFolder] reaches none of them from the
    roots.  A folder that is its own parent is the smallest case. *)
Theorem parent_cycle_not_shown folders (cycle : string -> Prop) :
  (forall folder,
     In folder folders -> cycle (folder_id folder) ->
     exists parent,
       folder_parentId folder = Some parent /\ parent <> "" /\ cycle parent /\
       In parent (List.map folder_id folders)) ->
  forall id, Sidebar.shown (Sidebar.buildFolderTree folders) id -> ~ cycle id.
Proof.
  intros Hcycle id Hshown.
  destruct (buildFolderTree_spec folders) as [Ht Hc].
  induction Hshown as [id Hroot | parent id _ IH Hchild].
  - rewrite Ht in Hroot. apply in_map_iff in Hroot.
    destruct Hroot as (f & <- & Hf). apply filter_In in Hf. destruct Hf as [Hin Hr].
    intro Hs. destruct (Hcycle f Hin Hs) as (p & Hp & Hne & _ & Hlisted).
    unfold Sidebar.is_root in Hr. rewrite Hp in Hr. simpl in Hr.
    unfold JS.truthy in Hr. destruct (String.eqb_spec p ""); [contradiction|].
    simpl in Hr. apply negb_true_iff in Hr.
    apply in_map_iff in Hlisted. destruct Hlisted as (g & Hg & Hgin).
    assert (List.existsb (fun f0 => p =? folder_id f0) folders = true).
    { apply existsb_exists. exists g. split; [exact Hgin|]. now apply String.eqb_eq. }
    congruence.
  - rewrite Hc in Hchild.
    destruct (List.existsb _ folders); [|destruct Hchild].
    apply in_map_iff in Hchild. destruct Hchild as (f & <- & Hf).
    apply filter_In in Hf. destruct Hf as [Hin Hp].
    unfold Sidebar.has_parent in Hp. apply andb_true_iff in Hp. destruct Hp as [_ Hp].
    apply is_string_iff in Hp.
    intro Hs. destruct (Hcycle f Hin Hs) as (p & Hp' & _ & Hsp & _).
    apply IH. congruence.
Qed.

Lemma folder_tree_shape_witness :
  snd (Sidebar.buildFolderTree SampleFolders.listed) = ["a"; "e"] /\
  Sidebar.children (fst (Sidebar.buildFolderTree SampleFolders.listed)) "a" = ["b"].
Proof.
  destruct (folder_tree_shape SampleFolders.listed) as [Ht Hc]. split.
  - rewrite Ht. reflexivity.
  - exact (Hc (SampleFolders.folder "a" None) (or_introl eq_refl)).
Defined.

Lemma parent_cycle_not_shown_witness :
  ~ Sidebar.shown (Sidebar.buildFolderTree SampleFolders.listed) "c" /\
  ~ Sidebar.shown (Sidebar.buildFolderTree SampleFolders.listed) "d".
Proof.
  assert (H : forall id,
             Sidebar.shown (Sidebar.buildFolderTree SampleFolders.listed) id ->
             ~ SampleFolders.cycle id).
  { apply parent_cycle_not_shown. unfold SampleFolders.cycle. simpl.
    intros f [<-|[<-|[<-|[<-|[<-|[]]]]]] [Hc|Hc]; try discriminate Hc.
    - exists "d". repeat split; try discriminate; tauto.
    - exists "c". repeat split; try discriminate; tauto. }
  split; intro Hs; apply (H _ Hs); [now left | now right].
Defined.

(** ** The listings among themselves *)

Lemma lower_char_idem c : JS.lower_char (JS.lower_char c) = JS.lower_char c.
Proof. destruct c as [[] [] [] [] [] [] [] []]; reflexivity. Qed.

Lemma toLowerCase_idem s : JS.toLowerCase (JS.toLowerCase s) = JS.toLowerCase s.
Proof.
  induction s as [|c r IH]; simpl; [reflexivity|]. now rewrite lower_char_idem, IH.
Qed.

Lemma includes_empty s : JS.includes s "" = true.
Proof. now destruct s. Qed.

Lemma sort_filter_and (p q : Note -> bool) l :
  sort_notes (List.filter (fun n => p n && q n) l)
  = List.filter q (sort_notes (List.filter p l)).
Proof. now rewrite <- sort_notes_filter, filter_twice. Qed.

(** X20.  The pinned listing and a search result are the user's full
    listing with the other notes left out, in the same order; the empty
    query leaves none out; and a query gives the same result as its
    lowercase form. *)
Theorem listings_are_sublistings st userId query :
  MemStorage.getPinnedNotes st userId
  = List.filter note_isPinned (MemStorage.getNotesByUserId st userId) /\
  MemStorage.searchNotes st userId query
  = List.filter (MemStorage.matches (JS.toLowerCase query))
                (MemStorage.getNotesByUserId st userId) /\
  MemStorage.searchNotes st userId "" = MemStorage.getNotesByUserId st userId /\
  MemStorage.searchNotes st userId (JS.toLowerCase query)
  = MemStorage.searchNotes st userId query.
Proof.
  unfold MemStorage.getPinnedNotes, MemStorage.searchNotes, MemStorage.getNotesByUserId.
  split; [apply sort_filter_and|]. split; [apply sort_filter_and|]. split.
  - f_equal. apply filter_ext. intro n. unfold MemStorage.matches. simpl.
    now rewrite includes_empty, andb_true_r.
  - now rewrite toLowerCase_idem.
Qed.

(** ** Updates and the rest of the store *)

(** X21.  An update of a note that is not in the store answers 404 and
    changes nothing.  An update of a note that is there keeps its
    identifier, owner and creation time, and leaves the users, the
    folders and the notes under other identifiers as they are. *)
Theorem put_note_frame st sess id body now :
  requireAuth sess <> None ->
  (MemStorage.getNote st id = None ->
     Routes.put_note st sess id body now = (st, Error 404 "Note not found")) /\
  (forall note,
     MemStorage.getNote st id = Some note ->
     exists st' updated,
       Routes.put_note st sess id body now = (st', NoteOk updated) /\
       MemStorage.getNote st' id = Some updated /\
       note_id updated = note_id note /\
       note_userId updated = note_userId note /\
       note_createdAt updated = note_createdAt note /\
       note_updatedAt updated = now /\
       users st' = users st /\ folders st' = folders st /\
       (forall k, k <> id -> MemStorage.getNote st' k = MemStorage.getNote st k)).
Proof.
  intro Hauth. unfold Routes.put_note.
  destruct (requireAuth sess); [|contradiction]. split.
  - unfold MemStorage.getNote, MemStorage.updateNote. now intros ->.
  - intros note Hget.
    destruct (updateNote_fields st id
                (mkUpdateNote (body_title body) (body_content body)
                              (none_to_undefined (body_folderId body))
                              (body_tags body) (body_isPinned body)) now note Hget)
      as (updated & Heq & Hget' & Hat & Hid & Howner & Hcreated & _).
    rewrite Heq in Hget' |- *. do 2 eexists. split; [reflexivity|].
    split; [exact Hget'|]. do 4 (split; [assumption|]).
    do 2 (split; [reflexivity|]).
    intros k Hk. unfold MemStorage.getNote. simpl. apply get_set_ne. congruence.
Qed.

Lemma put_note_frame_witness :
  Routes.put_note Sample.two_notes (Some Sample.bob) "n9"
    (mkNoteBody (Some "T") None None None None) 4000%Z
  = (Sample.two_notes, Error 404 "Note not found").
Proof.
  destruct (put_note_frame Sample.two_notes (Some Sample.bob) "n9"
              (mkNoteBody (Some "T") None None None None) 4000%Z) as [H _].
  - discriminate.
  - apply H. reflexivity.
Defined.

(** ** Time stamps *)

(** X22.  The note operations keep [createdAt <= updatedAt] on every
    note: creating and deleting always, and updating when the clock has
    not gone back behind the last update of the note. *)
Theorem operations_keep_timestamps_ordered st id now insertNote update :
  wf_store st ->
  timestamps_ordered st ->
  timestamps_ordered (fst (MemStorage.createNote st id now insertNote)) /\
  timestamps_ordered (MemStorage.deleteNote st id) /\
  timestamps_ordered (MemStorage.deleteFolder st id) /\
  ((forall note, MemStorage.getNote st id = Some note ->
      (note_updatedAt note <= now)%Z) ->
   timestamps_ordered (fst (MemStorage.updateNote st id update now))).
Proof.
  intros Hwf Hord. pose proof Hwf as (_ & _ & Hn). unfold timestamps_ordered in *.
  split; [|split; [|split]].
  - simpl. intros n Hin. apply (In_values_set note_id) in Hin; [|exact Hn|reflexivity].
    destruct Hin as [->|[Hin _]]; [simpl; lia | now apply Hord].
  - simpl. intros n Hin. apply Hord. apply In_values in Hin. destruct Hin as [k Hin].
    rewrite delete_filter in Hin by apply Hn. apply filter_In in Hin.
    apply In_values. exists k. tauto.
  - intros n Hin. rewrite deleteFolder_notes in Hin by exact Hn.
    rewrite (values_filter (outside id)) in Hin. apply filter_In in Hin.
    now apply Hord.
  - intros Hclock n Hin. unfold MemStorage.updateNote, MemStorage.getNote in *.
    destruct (JS.get id (notes st)) as [note|] eqn:E; [|now apply Hord].
    simpl in Hin. apply (In_values_set note_id) in Hin;
      [|exact Hn | simpl; eapply wf_map_get; eauto].
    destruct Hin as [->|[Hin _]]; [|now apply Hord]. simpl.
    specialize (Hclock note eq_refl).
    assert (note_createdAt note <= note_updatedAt note)%Z; [|lia].
    apply Hord, In_values. exists id. now apply get_Some_In.
Qed.

Lemma operations_keep_timestamps_ordered_witness :
  timestamps_ordered
    (fst (MemStorage.updateNote Sample.two_notes "n1"
            (mkUpdateNote (Some "Plan B") None None None None) 4000%Z)).
Proof.
  refine (proj2 (proj2 (proj2
            (operations_keep_timestamps_ordered Sample.two_notes "n1" 4000%Z
               (mkInsertNote "" "" None None None "") _ wf_two_notes _))) _).
  - intros n Hin. simpl in Hin. destruct Hin as [<-|[<-|[]]]; simpl; lia.
  - intros note. unfold MemStorage.getNote. simpl. intros [= <-]. simpl. lia.
Defined.
